(** * Helios inference server: the completion path of [server/inference.py]
    and [server/main.py], embedded in Rocq.

    Python values are modelled as the interpreter has them: a [str] is a
    sequence of Unicode code points, a [float] is an IEEE 754 binary64 number
    (Rocq's primitive floats), an [int] is an unbounded integer.  Effects
    (backend calls, clock readings, log records, exceptions, the mutable
    [model_loaded] attribute and the global [inference_engine]) are threaded
    through a state-and-exception monad. *)

From Stdlib Require Import List String Ascii Bool Arith NArith ZArith Lia.
From Stdlib Require Import Floats Uint63 DecimalString.
Import ListNotations.

Set Implicit Arguments.
Set Warnings "-inexact-float".
Local Open Scope list_scope.

(* ================================================================= *)
(** ** Python strings *)

Module PyStr.

(** A code point. *)
Definition char := N.
Definition str := list char.

(** A Rocq string literal (one byte per character) read as a Python
    [str] over code points below 256. *)
Definition py (s : string) : str := map N_of_ascii (list_ascii_of_string s).

Definition LF : char := 10%N.

(** [str.isspace] on one code point, the table CPython's
    [_PyUnicode_IsWhitespace] uses; [str.strip()] removes exactly these. *)
Definition isspace (c : char) : bool :=
  ((9 <=? c) && (c <=? 13) || (28 <=? c) && (c <=? 32)
   || (c =? 133) || (c =? 160) || (c =? 5760)
   || (8192 <=? c) && (c <=? 8202)
   || (c =? 8232) || (c =? 8233) || (c =? 8239) || (c =? 8287)
   || (c =? 12288))%N.

Fixpoint lstrip (s : str) : str :=
  match s with
  | [] => []
  | c :: s' => if isspace c then lstrip s' else s
  end.

Definition rstrip (s : str) : str := rev (lstrip (rev s)).

(** [s.strip()] *)
Definition strip (s : str) : str := rstrip (lstrip s).

(** Truth value of a [str]: non-empty. *)
Definition truthy (s : str) : bool :=
  match s with [] => false | _ :: _ => true end.

Fixpoint startswith (p s : str) : bool :=
  match p, s with
  | [], _ => true
  | _ :: _, [] => false
  | a :: p', b :: s' => (a =? b)%N && startswith p' s'
  end.

(** [a in s] *)
Fixpoint contains (a s : str) : bool :=
  startswith a s || match s with [] => false | _ :: s' => contains a s' end.

(** The left-to-right scan of [s.replace(old, new)] for a non-empty [old]:
    [skip] counts the characters of a match still to be passed over. *)
Fixpoint replace_from (old new : str) (skip : nat) (s : str) : str :=
  match s with
  | [] => []
  | c :: s' =>
      match skip with
      | S k => replace_from old new k s'
      | O =>
          if startswith old s
          then new ++ replace_from old new (List.length old - 1) s'
          else c :: replace_from old new 0 s'
      end
  end.

(** [s.replace(old, new)]: every non-overlapping occurrence, leftmost
    first; an empty [old] matches before every character and at the end. *)
Definition replace (old new s : str) : str :=
  match old with
  | [] => new ++ flat_map (fun c => c :: new) s
  | _ :: _ => replace_from old new 0 s
  end.

(** [s.split(sep)] for a one-character separator. *)
Fixpoint split (sep : char) (s : str) : list str :=
  match s with
  | [] => [[]]
  | c :: s' =>
      if (c =? sep)%N then [] :: split sep s'
      else match split sep s' with
           | [] => [[c]]
           | l :: ls => (c :: l) :: ls
           end
  end.

(** [sep.join(l)] *)
Fixpoint join (sep : str) (l : list str) : str :=
  match l with
  | [] => []
  | x :: rest =>
      match rest with
      | [] => x
      | _ :: _ => x ++ sep ++ join sep rest
      end
  end.

End PyStr.
Import PyStr.

(* ================================================================= *)
(** ** Python floats *)

Module PyFloat.
Local Open Scope float_scope.

(** [float(n)] for a length [n]; [len] is below [2^63], where the
    conversion is the primitive, correctly rounded one. *)
Definition float_of_len (n : nat) : float := of_uint63 (of_Z (Z.of_nat n)).

(** [min(a, b)] and [max(a, b)]: the first argument stays unless the
    second compares strictly below (above) it. *)
Definition py_min (a b : float) : float := if b <? a then b else a.
Definition py_max (a b : float) : float := if a <? b then b else a.

(** Truth value of a [float]: anything that is not a zero. *)
Definition float_truthy (x : float) : bool := negb (x =? 0).

End PyFloat.
Import PyFloat.

(* ================================================================= *)
(** ** Exceptions, outcomes and the state-and-exception monad *)

Inductive exn : Type :=
| RuntimeError (msg : str)
| ZeroDivisionError
| BackendError (msg : str)                    (* raised by the ollama client *)
| HTTPException (status_code : Z) (detail : str).

Inductive outcome (A : Type) : Type :=
| Return (a : A)
| Raise (e : exn).
Arguments Raise {A} e.

Definition M (S A : Type) : Type := S -> outcome A * S.

Definition ret {S A} (a : A) : M S A := fun s => (Return a, s).

Definition bind {S A B} (m : M S A) (k : A -> M S B) : M S B :=
  fun s => match m s with
           | (Return a, s') => k a s'
           | (Raise e, s') => (Raise e, s')
           end.

Definition raise {S A} (e : exn) : M S A := fun s => (Raise e, s).

(** [try: body / except Exception as e: handler e] *)
Definition try_except {S A} (body : M S A) (handler : exn -> M S A) : M S A :=
  fun s => match body s with
           | (Return a, s') => (Return a, s')
           | (Raise e, s') => handler e s'
           end.

Definition gets {S A} (f : S -> A) : M S A := fun s => (Return (f s), s).
Definition modify {S} (f : S -> S) : M S unit := fun s => (Return tt, f s).

(** An outcome that is already known. *)
Definition lift {S A} (o : outcome A) : M S A := fun s => (o, s).

Declare Scope monad_scope.
Delimit Scope monad_scope with monad.
Notation "x <- c1 ;; c2" := (bind c1 (fun x => c2))
  (at level 61, c1 at next level, right associativity) : monad_scope.
Notation "c1 ;; c2" := (bind c1 (fun _ => c2))
  (at level 61, right associativity) : monad_scope.
Local Open Scope monad_scope.

(** [a / b] on floats *)
Definition truediv (a b : float) : outcome float :=
  if (b =? 0)%float then Raise ZeroDivisionError else Return (a / b)%float.

(** [str(e)] *)
Definition exn_str (e : exn) : str :=
  match e with
  | RuntimeError msg => msg
  | ZeroDivisionError => py "float division by zero"
  | BackendError msg => msg
  | HTTPException status_code detail =>
      py (DecimalString.NilZero.string_of_int (Z.to_int status_code))
        ++ py ": " ++ detail
  end.

(* ================================================================= *)
(** ** Data model ([models.py]) *)

Module CompletionRequest.
Record t : Type := Build {
  code : str;
  language : str;
  position : list (str * Z);
  filename : str;
  max_tokens : option Z;          (* Optional[int] = 100 *)
  temperature : option float      (* Optional[float] = 0.1 *)
}.
End CompletionRequest.

Module CompletionResponse.
Record t : Type := Build {
  suggestion : str;
  confidence : float;
  processing_time : float
}.
End CompletionResponse.

Module HealthResponse.
Record t : Type := Build {
  status : str;
  model_loaded : bool;
  server_version : str;
  uptime : float
}.
End HealthResponse.

Module ServerConfig.
Record t : Type := Build {
  host : str;
  port : Z;
  model_name : str;
  max_tokens : Z;
  temperature : float;
  debug : bool
}.

(** [ServerConfig()] *)
Definition default : t :=
  {| host := py "127.0.0.1"; port := 8000; model_name := py "codellama:7b-code";
     max_tokens := 100; temperature := 0.1%float; debug := false |}.
End ServerConfig.

(* ================================================================= *)
(** ** The outside world: backend client, clock and log *)

(** The [options] dictionary of [client.generate]; the two keys the
    start-up probe leaves out are optional. *)
Record Options : Type := {
  num_predict : Z;
  temperature : float;
  top_p : option float;
  stop : option (list str)
}.

Inductive level : Type := DEBUG | INFO | ERROR.

(** The log records of the two modules, by format string. *)
Inductive logmsg : Type :=
| MsgNotFoundPulling (model : str)
| MsgPulling (model : str)
| MsgPulled (model : str)
| MsgPullFailed (e : exn)
| MsgLoaded (model : str)
| MsgInitFailed (e : exn)
| MsgGenerated (processing_time : float) (head : str)
| MsgGenerateFailed (e : exn)
| MsgStarting
| MsgModelInitialized
| MsgModelInitFailed
| MsgInitError (e : exn)
| MsgCompletionError (e : exn)
| MsgRestarting
| MsgRestarted
| MsgRestartError (e : exn).

(** What a run does that is visible from outside, in order.  The call of
    the post-processor is recorded as well, so that its place relative to
    the clock readings can be read off the trace. *)
Inductive event : Type :=
| ClientList
| ClientPull (model : str)
| ClientGenerate (model prompt : str) (options : Options)
| TimeTime (t : float)
| PostProcess (completion : str)
| Log (lvl : level) (msg : logmsg).

(** The backend and the clock answer as functions of everything that
    happened so far; a backend call either returns or raises. *)
Record Env : Type := {
  client_list : list event -> outcome (list str);
  client_pull : list event -> str -> outcome unit;
  client_generate : list event -> str -> str -> Options -> outcome str;
  clock : list event -> float
}.

(* ================================================================= *)
(** ** [inference.py]: class [CodeLlamaInference] *)

Record CodeLlamaInference : Type := {
  config : ServerConfig.t;
  model_name : str;
  model_loaded : bool
}.

(** The state a method runs in: its object and the trace so far. *)
Record Obj : Type := { self : CodeLlamaInference; trace : list event }.

Definition emit (ev : event) : M Obj unit :=
  modify (fun o => {| self := self o; trace := trace o ++ [ev] |}).

Definition logger (lvl : level) (msg : logmsg) : M Obj unit := emit (Log lvl msg).

Definition set_model_loaded (b : bool) : M Obj unit :=
  modify (fun o =>
    {| self := {| config := config (self o); model_name := model_name (self o);
                  model_loaded := b |};
       trace := trace o |}).

(** [time.time()] *)
Definition time_time (env : Env) : M Obj float :=
  h <- gets trace ;;
  let t := clock env h in
  emit (TimeTime t) ;; ret t.

(** [await self.client.list()], then the names of the listed models *)
Definition list_models (env : Env) : M Obj (list str) :=
  h <- gets trace ;;
  emit ClientList ;; lift (client_list env h).

(** [await self.client.pull(name)] *)
Definition pull (env : Env) (name : str) : M Obj unit :=
  h <- gets trace ;;
  emit (ClientPull name) ;; lift (client_pull env h name).

(** [await self.client.generate(model=..., prompt=..., options=...)],
    then [response['response']] *)
Definition generate (env : Env) (model prompt : str) (options : Options) : M Obj str :=
  h <- gets trace ;;
  emit (ClientGenerate model prompt options) ;;
  lift (client_generate env h model prompt options).

(** [CodeLlamaInference(config)] *)
Definition __init__ (cfg : ServerConfig.t) : CodeLlamaInference :=
  {| config := cfg; model_name := ServerConfig.model_name cfg; model_loaded := false |}.

Definition str_eqb (a b : str) : bool :=
  if list_eq_dec N.eq_dec a b then true else false.

(** [x in names] *)
Definition str_in (x : str) (names : list str) : bool := existsb (str_eqb x) names.

Definition pull_model (env : Env) : M Obj bool :=
  name <- gets (fun o => model_name (self o)) ;;
  try_except
    (logger INFO (MsgPulling name) ;;
     pull env name ;;
     logger INFO (MsgPulled name) ;;
     ret true)
    (fun e =>
     logger ERROR (MsgPullFailed e) ;;
     ret false).

Definition initialize (env : Env) : M Obj bool :=
  name <- gets (fun o => model_name (self o)) ;;
  try_except
    (model_names <- list_models env ;;
     (if negb (str_in name model_names)
      then logger INFO (MsgNotFoundPulling name) ;;
           _ <- pull_model env ;; ret tt
      else ret tt) ;;
     _ <- generate env name (py "def hello():")
            {| num_predict := 10; temperature := 0.1%float;
               top_p := None; stop := None |} ;;
     set_model_loaded true ;;
     logger INFO (MsgLoaded name) ;;
     ret true)
    (fun e =>
     logger ERROR (MsgInitFailed e) ;;
     set_model_loaded false ;;
     ret false).

Definition _prepare_prompt (request : CompletionRequest.t) : str :=
  let language := CompletionRequest.language request in
  let code := CompletionRequest.code request in
  let filename := CompletionRequest.filename request in
  py "<PRE> " ++ filename ++ [LF] ++ code ++ py "<SUF><MID>".

Definition artifacts : list str :=
  [ py "<MID>"; py "</MID>"; py "<SUF>"; py "</SUF>"; py "<PRE>"; py "</PRE>";
    py "```python"; py "```javascript"; py "```typescript"; py "```";
    py "<code>"; py "</code>" ].

(** [for artifact in artifacts: completion = completion.replace(artifact, '')] *)
Definition remove_artifacts (arts : list str) (completion : str) : str :=
  fold_left (fun c artifact => replace artifact [] c) arts completion.

(** The loop over [lines] with its accumulator [cleaned_lines]. *)
Fixpoint clean_loop (lines cleaned_lines : list str) : list str :=
  match lines with
  | [] => cleaned_lines
  | line :: rest =>
      if truthy (strip line) then clean_loop rest (cleaned_lines ++ [line])
      else if match cleaned_lines with [] => false | _ :: _ => true end
              && truthy (strip (last cleaned_lines []))
           then cleaned_lines ++ [[]]
           else clean_loop rest cleaned_lines
  end.

Definition _post_process_completion (completion : str)
    (request : CompletionRequest.t) : str :=
  let completion := strip completion in
  let completion := remove_artifacts artifacts completion in
  let lines := split LF completion in
  let cleaned_lines := clean_loop lines [] in
  strip (join [LF] cleaned_lines).

(** [request.max_tokens or self.config.max_tokens] *)
Definition max_tokens_or (x : option Z) (default : Z) : Z :=
  match x with
  | Some n => if (n =? 0)%Z then default else n
  | None => default
  end.

(** [request.temperature or self.config.temperature] *)
Definition temperature_or (x : option float) (default : float) : float :=
  match x with
  | Some t => if float_truthy t then t else default
  | None => default
  end.

Definition generate_completion (env : Env) (request : CompletionRequest.t)
  : M Obj (str * float) :=
  me <- gets self ;;
  if negb (model_loaded me) then raise (RuntimeError (py "Model not loaded"))
  else
    start_time <- time_time env ;;
    try_except
      (let prompt := _prepare_prompt request in
       response <- generate env (model_name me) prompt
         {| num_predict := max_tokens_or (CompletionRequest.max_tokens request)
                             (ServerConfig.max_tokens (config me));
            temperature := temperature_or (CompletionRequest.temperature request)
                             (ServerConfig.temperature (config me));
            top_p := Some 0.9%float;
            stop := Some [[LF; LF]; py "```"; py "</code>"] |} ;;
       let completion := strip response in
       now <- time_time env ;;
       let processing_time := (now - start_time)%float in
       emit (PostProcess completion) ;;
       let completion := _post_process_completion completion request in
       logger DEBUG (MsgGenerated processing_time (firstn 50 completion)) ;;
       ret (completion, processing_time))
      (fun e =>
       logger ERROR (MsgGenerateFailed e) ;;
       raise e).

Definition is_model_loaded (me : CodeLlamaInference) : bool := model_loaded me.

(* ================================================================= *)
(** ** [main.py]: the HTTP adapter *)

(** The module globals and the trace. *)
Record Server : Type := {
  inference_engine : option CodeLlamaInference;
  start_time : float;
  events : list event
}.

(** A method call on the object the global refers to. *)
Definition call {A} (me : CodeLlamaInference) (m : M Obj A) : M Server A :=
  fun s =>
    let '(r, o) := m {| self := me; trace := events s |} in
    (r, {| inference_engine := Some (self o); start_time := start_time s;
           events := trace o |}).

Definition emit_s (ev : event) : M Server unit :=
  modify (fun s => {| inference_engine := inference_engine s;
                      start_time := start_time s; events := events s ++ [ev] |}).

Definition set_engine (me : CodeLlamaInference) : M Server unit :=
  modify (fun s => {| inference_engine := Some me;
                      start_time := start_time s; events := events s |}).

Definition time_time_s (env : Env) : M Server float :=
  h <- gets events ;;
  let t := clock env h in
  emit_s (TimeTime t) ;; ret t.

(** The status the framework answers with: 200 for a returned body, the
    status of a raised [HTTPException], 500 for any other exception. *)
Definition http_status {A} (o : outcome A) : Z :=
  match o with
  | Return _ => 200
  | Raise (HTTPException status_code _) => status_code
  | Raise _ => 500
  end.

Definition initialize_model (env : Env) : M Server unit :=
  try_except
    (eng <- gets inference_engine ;;
     match eng with
     | None => raise (RuntimeError (py "'NoneType' object has no attribute 'initialize'"))
     | Some me =>
         success <- call me (initialize env) ;;
         if success : bool then emit_s (Log INFO MsgModelInitialized)
         else emit_s (Log ERROR MsgModelInitFailed)
     end)
    (fun e => emit_s (Log ERROR (MsgInitError e))).

(** Start-up part of [lifespan]; the background task is run to its end. *)
Definition lifespan_startup (env : Env) (cfg : ServerConfig.t) : M Server unit :=
  emit_s (Log INFO MsgStarting) ;;
  set_engine (__init__ cfg) ;;
  initialize_model env.

(** [GET /health] *)
Definition health_check (env : Env) : M Server HealthResponse.t :=
  now <- time_time_s env ;;
  st <- gets start_time ;;
  let uptime := (now - st)%float in
  eng <- gets inference_engine ;;
  ret {| HealthResponse.status := py "healthy";
         HealthResponse.model_loaded :=
           match eng with Some me => is_model_loaded me | None => false end;
         HealthResponse.server_version := py "0.1.0";
         HealthResponse.uptime := uptime |}.

(** Line 92 of [main.py]. *)
Definition confidence_of (completion : str) (processing_time : float)
  : outcome float :=
  match truediv (float_of_len (List.length completion)) 100 with
  | Raise e => Raise e
  | Return a =>
      match truediv 1 (py_max processing_time 0.1) with
      | Raise e => Raise e
      | Return b => Return (py_min 0.95 (a * 0.8 + b * 0.2))%float
      end
  end.

(** [POST /complete] *)
Definition get_completion (env : Env) (request : CompletionRequest.t)
  : M Server CompletionResponse.t :=
  eng <- gets inference_engine ;;
  match eng with
  | None => raise (HTTPException 503 (py "Inference engine not initialized"))
  | Some me =>
      if negb (is_model_loaded me)
      then raise (HTTPException 503 (py "Model not loaded"))
      else
        try_except
          (r <- call me (generate_completion env request) ;;
           let '(completion, processing_time) := r in
           confidence <- lift (confidence_of completion processing_time) ;;
           ret {| CompletionResponse.suggestion := completion;
                  CompletionResponse.confidence := confidence;
                  CompletionResponse.processing_time := processing_time |})
          (fun e =>
           emit_s (Log ERROR (MsgCompletionError e)) ;;
           raise (HTTPException 500
                    (py "Failed to generate completion: " ++ exn_str e)))
  end.

(** The background task of [POST /restart]. *)
Definition restart_model (env : Env) (cfg : ServerConfig.t) : M Server unit :=
  try_except
    (emit_s (Log INFO MsgRestarting) ;;
     let me := __init__ cfg in
     set_engine me ;;
     _ <- call me (initialize env) ;;
     emit_s (Log INFO MsgRestarted))
    (fun e => emit_s (Log ERROR (MsgRestartError e))).

(** The body of [GET /status]. *)
Module StatusResponse.
Record config_t : Type := BuildConfig {
  max_tokens : Z;
  temperature : float;
  host : str;
  port : Z
}.
Record t : Type := Build {
  server_status : str;
  model_loaded : bool;
  model_name : str;
  uptime : float;
  config : config_t
}.
End StatusResponse.

(** [GET /status]; [cfg] is the module's global [config]. *)
Definition get_status (env : Env) (cfg : ServerConfig.t) : M Server StatusResponse.t :=
  eng <- gets inference_engine ;;
  now <- time_time_s env ;;
  st <- gets start_time ;;
  ret {| StatusResponse.server_status := py "running";
         StatusResponse.model_loaded :=
           match eng with Some me => is_model_loaded me | None => false end;
         StatusResponse.model_name := ServerConfig.model_name cfg;
         StatusResponse.uptime := (now - st)%float;
         StatusResponse.config :=
           {| StatusResponse.max_tokens := ServerConfig.max_tokens cfg;
              StatusResponse.temperature := ServerConfig.temperature cfg;
              StatusResponse.host := ServerConfig.host cfg;
              StatusResponse.port := ServerConfig.port cfg |} |}.

(** The confidence formula in the words of the specification. *)
Definition ConfidenceEstimator (len : nat) (processingTime : float) : float :=
  py_min 0.95
    ((float_of_len len / 100) * 0.8 + (1 / py_max processingTime 0.1) * 0.2)%float.


(* ================================================================= *)
(** ** Vocabulary of the statements *)

(** A line made of whitespace only (the empty line included). *)
Definition is_blank (l : str) : bool := forallb isspace l.

Fixpoint take_while {A} (p : A -> bool) (l : list A) : list A :=
  match l with
  | [] => []
  | x :: r => if p x then x :: take_while p r else []
  end.

Fixpoint drop_while {A} (p : A -> bool) (l : list A) : list A :=
  match l with
  | [] => []
  | x :: r => if p x then drop_while p r else l
  end.

(** The first maximal run of non-blank lines. *)
Definition first_block (lines : list str) : list str :=
  take_while (fun l => negb (is_blank l)) (drop_while is_blank lines).

(** [f] applied to the first, respectively the last, line only. *)
Definition on_first (f : str -> str) (L : list str) : list str :=
  match L with
  | [] => []
  | x :: r => f x :: r
  end.

Fixpoint on_last (f : str -> str) (L : list str) : list str :=
  match L with
  | [] => []
  | x :: r => match r with [] => [f x] | _ :: _ => x :: on_last f r end
  end.

(** [a] occurs in [s] as a contiguous substring. *)
Definition infix (a s : str) : Prop := exists p q, s = p ++ a ++ q.

(** Some artifact token occurs in [s]. *)
Definition has_artifact (s : str) : bool :=
  existsb (fun a => contains a s) artifacts.

(** No whitespace at either end. *)
Definition trimmed (s : str) : Prop :=
  forall c, (hd_error s = Some c \/ hd_error (rev s) = Some c) -> isspace c = false.

(** Sign classes of a float, read off its IEEE 754 specification. *)
Definition sf_nonneg (x : spec_float) : Prop :=
  match x with
  | S754_zero _ | S754_infinity false | S754_finite false _ _ => True
  | _ => False
  end.

Definition sf_nonneg_or_nan (x : spec_float) : Prop :=
  match x with
  | S754_nan => True
  | _ => sf_nonneg x
  end.

Definition sf_pos_or_nan (x : spec_float) : Prop :=
  match x with
  | S754_nan | S754_infinity false | S754_finite false _ _ => True
  | _ => False
  end.

Definition sf_finite (x : spec_float) : Prop :=
  match x with
  | S754_zero _ | S754_finite _ _ _ => True
  | _ => False
  end.

(** The [options] argument of the completion call (lines 73-78). *)
Definition decoding_options (me : CodeLlamaInference)
    (request : CompletionRequest.t) : Options :=
  {| num_predict := max_tokens_or (CompletionRequest.max_tokens request)
                      (ServerConfig.max_tokens (config me));
     temperature := temperature_or (CompletionRequest.temperature request)
                      (ServerConfig.temperature (config me));
     top_p := Some 0.9%float;
     stop := Some [[LF; LF]; py "```"; py "</code>"] |}.

(** The [options] argument of the start-up probe (lines 32-35). *)
Definition probe_options : Options :=
  {| num_predict := 10; temperature := 0.1%float; top_p := None; stop := None |}.

(** The history up to and including the call of the post-processor. *)
Fixpoint through_post_process (h : list event) : list event :=
  match h with
  | [] => []
  | PostProcess c :: _ => [PostProcess c]
  | ev :: r => ev :: through_post_process r
  end.

(** A clock that advances by one second with every event. *)
Definition step_clock (h : list event) : float := float_of_len (List.length h).

(** The backend of the specification's example scenario: the model is
    installed and always answers with the same text. *)
Definition env_hi : Env :=
  {| client_list := fun _ => Return [py "codellama:7b-code"];
     client_pull := fun _ _ => Return tt;
     client_generate := fun _ _ _ _ =>
       Return ([LF] ++ py "    print('hi')" ++ [LF; LF]);
     clock := step_clock |}.

(** A backend that lists no model and cannot pull, but does generate. *)
Definition env_no_pull : Env :=
  {| client_list := fun _ => Return [];
     client_pull := fun _ _ => Raise (BackendError (py "pull failed"));
     client_generate := fun _ _ _ _ => Return (py "    pass");
     clock := step_clock |}.

(** A backend that lists no model, cannot pull and cannot generate. *)
Definition env_down : Env :=
  {| client_list := fun _ => Return [];
     client_pull := fun _ _ => Raise (BackendError (py "pull failed"));
     client_generate := fun _ _ _ _ => Raise (BackendError (py "model not found"));
     clock := step_clock |}.

Definition is_generate (ev : event) : bool :=
  match ev with ClientGenerate _ _ _ => true | _ => false end.

(** A backend whose generation takes half a second and returns a line of
    fifty characters. *)
Definition env_half_second : Env :=
  {| client_list := fun _ => Return [py "codellama:7b-code"];
     client_pull := fun _ _ => Return tt;
     client_generate := fun _ _ _ _ =>
       Return (py "    return sum(value for value in values if value > 0)");
     clock := fun h => if existsb is_generate h then 1.5%float else 1%float |}.

(** Wall-clock time from the history [h0] at the start of a run to the
    moment the post-processor has been called, in the final history [h]. *)
Definition elapsed_through_post_process (env : Env) (h0 h : list event) : float :=
  (clock env (through_post_process h) - clock env h0)%float.

(** The test request with an explicit temperature of zero. *)
Definition zero_temperature_request : CompletionRequest.t :=
  {| CompletionRequest.code := py "def hello():";
     CompletionRequest.language := py "python";
     CompletionRequest.position := [(py "line", 0%Z); (py "character", 12%Z)];
     CompletionRequest.filename := py "test.py";
     CompletionRequest.max_tokens := Some 100%Z;
     CompletionRequest.temperature := Some 0%float |}.

(** A manager in the Ready state, with the default configuration. *)
Definition ready_engine : CodeLlamaInference :=
  {| config := ServerConfig.default;
     model_name := ServerConfig.model_name ServerConfig.default;
     model_loaded := true |}.

(** The request of the repository's own test ([test_main.py]). *)
Definition hello_request : CompletionRequest.t :=
  {| CompletionRequest.code := py "def hello():";
     CompletionRequest.language := py "python";
     CompletionRequest.position := [(py "line", 0%Z); (py "character", 12%Z)];
     CompletionRequest.filename := py "test.py";
     CompletionRequest.max_tokens := Some 100%Z;
     CompletionRequest.temperature := Some 0.1%float |}.

(** The calls to the backend among the events of a history. *)
Definition is_backend_call (ev : event) : bool :=
  match ev with
  | ClientList | ClientPull _ | ClientGenerate _ _ _ => true
  | _ => false
  end.

Definition backend_calls (h : list event) : list event := filter is_backend_call h.

(** [a] is [s] with some characters deleted. *)
Inductive subsequence : str -> str -> Prop :=
| subsequence_nil : subsequence [] []
| subsequence_skip (a : str) (c : char) (s : str) :
    subsequence a s -> subsequence a (c :: s)
| subsequence_keep (a : str) (c : char) (s : str) :
    subsequence a s -> subsequence (c :: a) (c :: s).

(** A backend that is not reachable at all. *)
Definition env_unreachable : Env :=
  {| client_list := fun _ => Raise (BackendError (py "connection refused"));
     client_pull := fun _ _ => Raise (BackendError (py "connection refused"));
     client_generate := fun _ _ _ _ => Raise (BackendError (py "connection refused"));
     clock := fun _ => 1%float |}.

(** A backend that answers every generation with blank text. *)
Definition env_blank : Env :=
  {| client_list := fun _ => Return [py "codellama:7b-code"];
     client_pull := fun _ _ => Return tt;
     client_generate := fun _ _ _ _ => Return ([LF] ++ py "   " ++ [LF; LF]);
     clock := fun _ => 1%float |}.

(* ================================================================= *)
(** ** Facts about the string operations *)

Section StripFacts.

Lemma isspace_LF : isspace LF = true.
Proof. reflexivity. Qed.

Lemma lstrip_blank (s : str) : is_blank s = true -> lstrip s = [].
Proof.
  induction s as [|c s IH]; simpl; [reflexivity|].
  intros H. apply andb_prop in H as [Hc Hs]. rewrite Hc. auto.
Qed.

Lemma lstrip_nil_blank (s : str) : lstrip s = [] -> is_blank s = true.
Proof.
  induction s as [|c s IH]; simpl; [reflexivity|].
  destruct (isspace c); simpl; [exact IH | discriminate].
Qed.

(** [lstrip] cuts a whitespace prefix off. *)
Lemma lstrip_split (s : str) :
  exists ws, s = ws ++ lstrip s /\ is_blank ws = true.
Proof.
  induction s as [|c s [ws [E B]]]; simpl.
  - exists []. split; reflexivity.
  - destruct (isspace c) eqn:Hc.
    + exists (c :: ws). simpl. rewrite Hc, B. split; [f_equal; exact E | reflexivity].
    + exists []. split; reflexivity.
Qed.

Lemma lstrip_app (a b : str) :
  is_blank a = false -> lstrip (a ++ b) = lstrip a ++ b.
Proof.
  induction a as [|c a IH]; simpl; [discriminate|].
  destruct (isspace c); simpl; [exact IH | reflexivity].
Qed.

Lemma lstrip_blank_app (a b : str) :
  is_blank a = true -> lstrip (a ++ b) = lstrip b.
Proof.
  induction a as [|c a IH]; simpl; [reflexivity|].
  intros H. apply andb_prop in H as [Hc Ha]. rewrite Hc. auto.
Qed.

Lemma lstrip_head (s : str) (c : char) :
  hd_error (lstrip s) = Some c -> isspace c = false.
Proof.
  induction s as [|d s IH]; simpl; [discriminate|].
  destruct (isspace d) eqn:Hd; simpl; [exact IH|].
  intros [= <-]. exact Hd.
Qed.

Lemma lstrip_fix (s : str) :
  (forall c, hd_error s = Some c -> isspace c = false) -> lstrip s = s.
Proof.
  destruct s as [|c s]; simpl; [reflexivity|].
  intros H. rewrite (H c eq_refl). reflexivity.
Qed.

Lemma is_blank_app (a b : str) : is_blank (a ++ b) = is_blank a && is_blank b.
Proof. apply forallb_app. Qed.

Lemma is_blank_rev (a : str) : is_blank (rev a) = is_blank a.
Proof.
  induction a as [|c a IH]; simpl; [reflexivity|].
  rewrite is_blank_app, IH. simpl. rewrite andb_true_r. apply andb_comm.
Qed.

Lemma is_blank_lstrip (s : str) : is_blank (lstrip s) = is_blank s.
Proof.
  induction s as [|c s IH]; simpl; [reflexivity|].
  destruct (isspace c) eqn:Hc; simpl; [exact IH | rewrite Hc; reflexivity].
Qed.

Lemma is_blank_rstrip (s : str) : is_blank (rstrip s) = is_blank s.
Proof.
  unfold rstrip. rewrite is_blank_rev, is_blank_lstrip. apply is_blank_rev.
Qed.

Lemma is_blank_strip (s : str) : is_blank (strip s) = is_blank s.
Proof. unfold strip. rewrite is_blank_rstrip. apply is_blank_lstrip. Qed.

Lemma rstrip_split (s : str) :
  exists ws, s = rstrip s ++ ws /\ is_blank ws = true.
Proof.
  destruct (lstrip_split (rev s)) as [ws [E B]].
  exists (rev ws). split.
  - unfold rstrip. rewrite <- rev_app_distr, <- E. symmetry. apply rev_involutive.
  - rewrite is_blank_rev. exact B.
Qed.

Lemma rstrip_app (a b : str) :
  is_blank b = false -> rstrip (a ++ b) = a ++ rstrip b.
Proof.
  intros H. unfold rstrip. rewrite rev_app_distr, lstrip_app, rev_app_distr, rev_involutive.
  - reflexivity.
  - rewrite is_blank_rev. exact H.
Qed.

Lemma rstrip_app_blank (a b : str) :
  is_blank b = true -> rstrip (a ++ b) = rstrip a.
Proof.
  intros H. unfold rstrip. rewrite rev_app_distr, lstrip_blank_app; [reflexivity|].
  rewrite is_blank_rev. exact H.
Qed.

Lemma strip_infix (s : str) : infix (strip s) s.
Proof.
  destruct (lstrip_split s) as [ws [E _]].
  destruct (rstrip_split (lstrip s)) as [ws' [E' _]].
  exists ws, ws'. unfold strip. rewrite <- E'. exact E.
Qed.

Lemma strip_trimmed (s : str) : trimmed (strip s).
Proof.
  intros c [H|H].
  - destruct (rstrip_split (lstrip s)) as [ws [E B]]. fold (strip s) in E.
    destruct (strip s) as [|d r] eqn:Es; [discriminate|].
    simpl in H. injection H as ->.
    apply lstrip_head with (s := s). rewrite E. reflexivity.
  - unfold strip, rstrip in H. rewrite rev_involutive in H.
    exact (lstrip_head _ H).
Qed.

Lemma trimmed_strip (s : str) : trimmed s -> strip s = s.
Proof.
  intros T. unfold strip.
  rewrite (lstrip_fix s) by (intros c Hc; apply T; left; exact Hc).
  unfold rstrip. rewrite lstrip_fix, rev_involutive; [reflexivity|].
  intros c Hc. apply T. right. exact Hc.
Qed.

(** The test [if line.strip()] of the loop. *)
Lemma truthy_strip (s : str) : truthy (strip s) = negb (is_blank s).
Proof.
  rewrite <- (is_blank_strip s).
  pose proof (strip_trimmed s) as T.
  destruct (strip s) as [|c r]; [reflexivity|].
  simpl. rewrite (T c) by (left; reflexivity). reflexivity.
Qed.

End StripFacts.

Section SplitJoin.

Variable sep : char.

Lemma split_nonempty (s : str) : split sep s <> [].
Proof.
  destruct s as [|c s]; simpl; [discriminate|].
  destruct (c =? sep)%N; [discriminate|].
  destruct (split sep s); discriminate.
Qed.

Lemma join_cons (x : str) (r : list str) :
  r <> [] -> join [sep] (x :: r) = x ++ sep :: join [sep] r.
Proof. destruct r; [congruence | reflexivity]. Qed.

Lemma join_split (s : str) : join [sep] (split sep s) = s.
Proof.
  induction s as [|c s IH]; [reflexivity|].
  simpl split. destruct (c =? sep)%N eqn:E.
  - apply N.eqb_eq in E. subst c.
    rewrite join_cons by apply split_nonempty. simpl. f_equal. exact IH.
  - destruct (split sep s) as [|l ls] eqn:Es; [destruct (split_nonempty _ Es)|].
    rewrite <- IH. destruct ls; reflexivity.
Qed.

Lemma split_no_sep (s : str) : Forall (fun l => ~ In sep l) (split sep s).
Proof.
  induction s as [|c s IH]; simpl.
  - constructor; [intros [] | constructor].
  - destruct (c =? sep)%N eqn:E.
    + constructor; [intros [] | exact IH].
    + apply N.eqb_neq in E.
      destruct (split sep s) as [|l ls]; [repeat constructor; intros [H|[]]; congruence|].
      inversion IH as [|? ? Hl Hls]; subst.
      constructor; [|exact Hls].
      intros [H|H]; [congruence | exact (Hl H)].
Qed.

Lemma split_app_sep (x t : str) :
  ~ In sep x -> split sep (x ++ sep :: t) = x :: split sep t.
Proof.
  induction x as [|c x IH]; simpl; intros H.
  - rewrite N.eqb_refl. reflexivity.
  - destruct (c =? sep)%N eqn:E.
    + apply N.eqb_eq in E. destruct H. left. exact E.
    + rewrite IH by (intros K; apply H; right; exact K). reflexivity.
Qed.

Lemma split_single (x : str) : ~ In sep x -> split sep x = [x].
Proof.
  induction x as [|c x IH]; simpl; intros H; [reflexivity|].
  destruct (c =? sep)%N eqn:E.
  - apply N.eqb_eq in E. destruct H. left. exact E.
  - rewrite IH by (intros K; apply H; right; exact K). reflexivity.
Qed.

Lemma split_join (L : list str) :
  L <> [] -> Forall (fun l => ~ In sep l) L -> split sep (join [sep] L) = L.
Proof.
  induction L as [|x r IH]; [congruence|].
  intros _ H. inversion H as [|? ? Hx Hr]; subst.
  destruct r as [|y r].
  - simpl. apply split_single. exact Hx.
  - rewrite join_cons by discriminate.
    rewrite split_app_sep by exact Hx.
    rewrite IH; [reflexivity | discriminate | exact Hr].
Qed.

Lemma join_app (A B : list str) :
  A <> [] -> B <> [] -> join [sep] (A ++ B) = join [sep] A ++ sep :: join [sep] B.
Proof.
  induction A as [|x r IH]; [congruence|].
  intros _ HB. destruct r as [|y r].
  - simpl app. rewrite join_cons by exact HB. reflexivity.
  - change ((x :: y :: r) ++ B) with (x :: ((y :: r) ++ B)).
    rewrite join_cons by discriminate.
    rewrite IH by (discriminate || exact HB).
    rewrite (join_cons x (r := y :: r)) by discriminate.
    rewrite <- app_assoc. reflexivity.
Qed.

End SplitJoin.

Section InfixFacts.

Lemma infix_refl (s : str) : infix s s.
Proof. exists [], []. rewrite app_nil_r. reflexivity. Qed.

Lemma infix_trans (a b c : str) : infix a b -> infix b c -> infix a c.
Proof.
  intros [p [q ->]] [p' [q' ->]].
  exists (p' ++ p), (q ++ q'). rewrite <- !app_assoc. reflexivity.
Qed.

Lemma infix_app_r (a s t : str) : infix a s -> infix a (t ++ s).
Proof.
  intros [p [q ->]]. exists (t ++ p), q. rewrite <- app_assoc. reflexivity.
Qed.

Lemma infix_app_l (a s t : str) : infix a s -> infix a (s ++ t).
Proof.
  intros [p [q ->]]. exists p, (q ++ t). rewrite <- !app_assoc. reflexivity.
Qed.

Lemma infix_length (a s : str) : infix a s -> List.length a <= List.length s.
Proof. intros [p [q ->]]. rewrite !length_app. lia. Qed.

Lemma startswith_app (a s : str) :
  startswith a s = true <-> exists q, s = a ++ q.
Proof.
  revert s. induction a as [|c a IH]; intros s; simpl.
  - split; [exists s; reflexivity | reflexivity].
  - destruct s as [|d s].
    + split; [discriminate | intros [q H]; discriminate].
    + rewrite andb_true_iff, N.eqb_eq, IH. split.
      * intros [-> [q ->]]. exists q. reflexivity.
      * intros [q [= -> ->]]. split; [reflexivity | exists q; reflexivity].
Qed.

(** [a in s] decides [infix a s]. *)
Lemma contains_infix (a s : str) : contains a s = true <-> infix a s.
Proof.
  induction s as [|d s IH].
  - simpl. rewrite orb_false_r, startswith_app. split.
    + intros [q ->]. exists [], q. reflexivity.
    + intros [p [q H]]. destruct p; [exists q; exact H | discriminate].
  - simpl. rewrite orb_true_iff, startswith_app, IH. split.
    + intros [[q ->] | [p [q ->]]].
      * exists [], q. reflexivity.
      * exists (d :: p), q. reflexivity.
    + intros [p [q H]]. destruct p as [|e p].
      * left. exists q. exact H.
      * right. injection H as -> ->. exists p, q. reflexivity.
Qed.

Lemma contains_false_infix (a s t : str) :
  infix s t -> contains a t = false -> contains a s = false.
Proof.
  intros Hst Ht. destruct (contains a s) eqn:E; [|reflexivity].
  rewrite <- Ht. symmetry. apply contains_infix.
  apply infix_trans with s; [apply contains_infix; exact E | exact Hst].
Qed.

(** A block of consecutive lines, joined, is a substring of the whole. *)
Lemma infix_join_block (sep : char) (A B C : list str) :
  infix (join [sep] B) (join [sep] (A ++ B ++ C)).
Proof.
  destruct B as [|b B]; [exists [], (join [sep] (A ++ C)); reflexivity|].
  assert (H : infix (join [sep] (b :: B)) (join [sep] ((b :: B) ++ C))).
  { destruct C as [|c C]; [rewrite app_nil_r; apply infix_refl|].
    rewrite join_app by discriminate. apply infix_app_l, infix_refl. }
  destruct A as [|a A]; [exact H|].
  rewrite join_app by discriminate.
  apply infix_app_r. apply (infix_app_r [sep]) in H. exact H.
Qed.

End InfixFacts.

Section LineFacts.

Lemma take_drop_while {A} (p : A -> bool) (l : list A) :
  take_while p l ++ drop_while p l = l.
Proof.
  induction l as [|x r IH]; simpl; [reflexivity|].
  destruct (p x); simpl; [f_equal; exact IH | reflexivity].
Qed.

Lemma take_while_all {A} (p : A -> bool) (l : list A) :
  Forall (fun x => p x = true) (take_while p l).
Proof.
  induction l as [|x r IH]; simpl; [constructor|].
  destruct (p x) eqn:E; constructor; assumption.
Qed.

(** The lines of the first block are consecutive lines of the text. *)
Lemma first_block_run (lines : list str) :
  exists A C, lines = A ++ first_block lines ++ C.
Proof.
  unfold first_block.
  exists (take_while is_blank lines),
         (drop_while (fun l => negb (is_blank l)) (drop_while is_blank lines)).
  rewrite take_drop_while, take_drop_while. reflexivity.
Qed.

Lemma first_block_nonblank (lines : list str) :
  Forall (fun l => is_blank l = false) (first_block lines).
Proof.
  unfold first_block.
  eapply Forall_impl; [|apply take_while_all].
  intros l H. apply negb_true_iff. exact H.
Qed.

Lemma Forall_last {A} (P : A -> Prop) (L : list A) (d : A) :
  L <> [] -> Forall P L -> P (last L d).
Proof.
  induction L as [|x r IH]; [congruence|].
  intros _ H. inversion H; subst.
  destruct r; [assumption | apply IH; [discriminate | assumption]].
Qed.

(** The loop, once some line has been kept. *)
Lemma clean_loop_acc (lines acc : list str) :
  acc <> [] -> Forall (fun l => is_blank l = false) acc ->
  clean_loop lines acc =
    acc ++ take_while (fun l => negb (is_blank l)) lines
        ++ match drop_while (fun l => negb (is_blank l)) lines with
           | [] => []
           | _ :: _ => [[]]
           end.
Proof.
  revert acc. induction lines as [|line rest IH]; intros acc Hne Hacc; simpl.
  - rewrite app_nil_r. reflexivity.
  - rewrite truthy_strip. destruct (is_blank line) eqn:B; simpl.
    + rewrite truthy_strip.
      rewrite (Forall_last (P := fun l => is_blank l = false) [] Hne Hacc).
      destruct acc; [congruence | reflexivity].
    + rewrite IH.
      * rewrite <- app_assoc. reflexivity.
      * destruct acc; discriminate.
      * apply Forall_app. split; [exact Hacc | repeat constructor; exact B].
Qed.

(** The loop from the empty accumulator: leading blank lines are passed
    over, the first block is kept, and one empty line marks a gap. *)
Lemma clean_loop_nil (lines : list str) :
  clean_loop lines [] =
    first_block lines
    ++ match drop_while (fun l => negb (is_blank l)) (drop_while is_blank lines) with
       | [] => []
       | _ :: _ => [[]]
       end.
Proof.
  unfold first_block. induction lines as [|line rest IH]; simpl; [reflexivity|].
  rewrite truthy_strip. destruct (is_blank line) eqn:B; simpl.
  - exact IH.
  - rewrite B. simpl.
    rewrite clean_loop_acc; [reflexivity | discriminate | repeat constructor; exact B].
Qed.

Lemma strip_blank (s : str) : is_blank s = true -> strip s = [].
Proof. intros H. unfold strip. rewrite lstrip_blank by exact H. reflexivity. Qed.

Lemma strip_app_blank (x w : str) : is_blank w = true -> strip (x ++ w) = strip x.
Proof.
  intros H. destruct (is_blank x) eqn:B.
  - rewrite !strip_blank; [reflexivity | exact B |].
    rewrite is_blank_app, B, H. reflexivity.
  - unfold strip. rewrite lstrip_app by exact B.
    apply rstrip_app_blank. exact H.
Qed.

(** The empty line that marks the gap does not survive the final trim. *)
Lemma strip_join_gap (B : list str) :
  strip (join [LF] (B ++ [[]])) = strip (join [LF] B).
Proof.
  destruct B as [|b B]; [reflexivity|].
  rewrite join_app by discriminate.
  apply strip_app_blank. reflexivity.
Qed.

Lemma in_join_infix (sep : char) (l : str) (L : list str) :
  In l L -> infix l (join [sep] L).
Proof.
  intros H. apply in_split in H as [A [C ->]].
  apply (infix_join_block sep A [l] C).
Qed.

Lemma is_blank_infix (l s : str) : infix l s -> is_blank l = false -> is_blank s = false.
Proof.
  intros [p [q ->]] H. rewrite !is_blank_app, H.
  rewrite andb_false_r. reflexivity.
Qed.

Lemma lstrip_join (B : list str) :
  Forall (fun l => is_blank l = false) B ->
  lstrip (join [LF] B) = join [LF] (on_first lstrip B).
Proof.
  destruct B as [|b r]; [reflexivity|].
  intros H. inversion H; subst. simpl on_first.
  destruct r as [|y r]; [reflexivity|].
  rewrite !join_cons by discriminate.
  apply lstrip_app. assumption.
Qed.

Lemma rstrip_join (L : list str) :
  Forall (fun l => is_blank l = false) L ->
  rstrip (join [LF] L) = join [LF] (on_last rstrip L).
Proof.
  induction L as [|x r IH]; [reflexivity|].
  intros H. inversion H as [|? ? Hx Hr]; subst.
  destruct r as [|y r]; [reflexivity|].
  change (on_last rstrip (x :: y :: r)) with (x :: on_last rstrip (y :: r)).
  rewrite join_cons by discriminate.
  rewrite (join_cons LF x (r := on_last rstrip (y :: r)))
    by (simpl; destruct r; discriminate).
  rewrite <- IH by exact Hr.
  change (x ++ LF :: join [LF] (y :: r)) with (x ++ [LF] ++ join [LF] (y :: r)).
  rewrite app_assoc, rstrip_app, <- app_assoc; [reflexivity|].
  apply is_blank_infix with y.
  - apply in_join_infix. left. reflexivity.
  - inversion Hr; assumption.
Qed.

Lemma Forall_on_first (P : str -> Prop) (f : str -> str) (L : list str) :
  (forall x, P x -> P (f x)) -> Forall P L -> Forall P (on_first f L).
Proof.
  intros Hf H. destruct H; simpl; constructor; auto.
Qed.

Lemma Forall_on_last (P : str -> Prop) (f : str -> str) (L : list str) :
  (forall x, P x -> P (f x)) -> Forall P L -> Forall P (on_last f L).
Proof.
  intros Hf H. induction H as [|x r Hx Hr IH]; simpl; [constructor|].
  destruct r; constructor; auto.
Qed.

Lemma in_lstrip (c : char) (s : str) : In c (lstrip s) -> In c s.
Proof.
  destruct (lstrip_split s) as [ws [E _]]. intros H.
  rewrite E. apply in_or_app. right. exact H.
Qed.

Lemma in_rstrip (c : char) (s : str) : In c (rstrip s) -> In c s.
Proof.
  destruct (rstrip_split s) as [ws [E _]]. intros H.
  rewrite E. apply in_or_app. left. exact H.
Qed.

(** Trimming a text whose lines are all non-blank trims its first line on
    the left and its last line on the right. *)
Lemma strip_join (B : list str) :
  Forall (fun l => is_blank l = false) B ->
  strip (join [LF] B) = join [LF] (on_last rstrip (on_first lstrip B)).
Proof.
  intros H. unfold strip. rewrite lstrip_join by exact H.
  apply rstrip_join. apply Forall_on_first; [|exact H].
  intros x Hx. rewrite is_blank_lstrip. exact Hx.
Qed.

(** The lines of such a trimmed text are again all non-blank. *)
Lemma split_strip_join (B : list str) :
  B <> [] ->
  Forall (fun l => is_blank l = false) B ->
  Forall (fun l => ~ In LF l) B ->
  split LF (strip (join [LF] B)) = on_last rstrip (on_first lstrip B).
Proof.
  intros Hne Hb Hs. rewrite strip_join by exact Hb.
  apply split_join.
  - destruct B as [|b [|y r]]; [congruence | discriminate |].
    simpl. destruct r; discriminate.
  - apply Forall_on_last; [intros x Hx K; apply Hx, in_rstrip, K|].
    apply Forall_on_first; [intros x Hx K; apply Hx, in_lstrip, K | exact Hs].
Qed.

End LineFacts.

Section ReplaceFacts.

Variable old : str.

Lemma replace_from_length (k : nat) (s : str) :
  List.length (replace_from old [] k s) <= List.length s.
Proof.
  revert k. induction s as [|c s IH]; intros k; simpl; [lia|].
  destruct k as [|k].
  - destruct (startswith old (c :: s)); simpl.
    + specialize (IH (List.length old - 1)). lia.
    + specialize (IH 0). lia.
  - specialize (IH k). lia.
Qed.

(** Skipping over a matched occurrence. *)
Lemma replace_from_skip (new x rest : str) :
  replace_from old new (List.length x) (x ++ rest) = replace_from old new 0 rest.
Proof.
  induction x as [|c x IH]; simpl; [reflexivity | exact IH].
Qed.

Lemma replace_nonempty (new s : str) :
  old <> [] -> replace old new s = replace_from old new 0 s.
Proof. unfold replace. destruct old; [congruence | reflexivity]. Qed.

(** The two equations of the scan: an occurrence at the front is replaced
    and the scan goes on behind it; otherwise one character is copied. *)
Lemma replace_match (new rest : str) :
  old <> [] -> replace old new (old ++ rest) = new ++ replace old new rest.
Proof.
  intros Hne. rewrite !replace_nonempty by exact Hne.
  destruct (old ++ rest) as [|c s] eqn:E.
  - destruct old; [congruence | discriminate].
  - simpl replace_from.
    assert (H : startswith old (c :: s) = true)
      by (apply startswith_app; exists rest; symmetry; exact E).
    rewrite H. f_equal.
    destruct old as [|a o] eqn:Eo; [congruence|].
    injection E as -> <-.
    replace (List.length (c :: o) - 1) with (List.length o) by (simpl; lia).
    rewrite <- Eo. apply replace_from_skip.
Qed.

Lemma replace_no_match (new : str) (c : char) (s : str) :
  startswith old (c :: s) = false ->
  replace old new (c :: s) = c :: replace old new s.
Proof.
  intros H. assert (Hne : old <> []) by (intros K; rewrite K in H; discriminate).
  rewrite !replace_nonempty by exact Hne.
  simpl replace_from. rewrite H. reflexivity.
Qed.

Lemma replace_absent (s : str) : contains old s = false -> replace old [] s = s.
Proof.
  unfold replace. destruct old as [|a o] eqn:E; [destruct s; discriminate|].
  rewrite <- E. clear E.
  induction s as [|c s IH]; [reflexivity|].
  simpl. intros H. apply orb_false_iff in H as [H1 H2].
  simpl in H1. rewrite H1. f_equal. exact (IH H2).
Qed.

Lemma replace_length (s : str) : List.length (replace old [] s) <= List.length s.
Proof.
  unfold replace. destruct old as [|a o] eqn:E.
  - simpl. induction s; simpl; lia.
  - rewrite <- E. apply replace_from_length.
Qed.

Lemma replace_shrinks (s : str) :
  old <> [] -> contains old s = true ->
  List.length (replace old [] s) < List.length s.
Proof.
  intros Hne. rewrite replace_nonempty by exact Hne.
  induction s as [|c s IH]; intros H.
  - simpl in H. rewrite orb_false_r in H.
    destruct old; [congruence | discriminate].
  - simpl replace_from. simpl contains in H.
    destruct (startswith old (c :: s)) eqn:S.
    + simpl. pose proof (replace_from_length (List.length old - 1) s). lia.
    + simpl in H. specialize (IH H). simpl. lia.
Qed.

End ReplaceFacts.

Section RemoveArtifacts.

Lemma remove_absent (arts : list str) (s : str) :
  existsb (fun a => contains a s) arts = false -> remove_artifacts arts s = s.
Proof.
  unfold remove_artifacts.
  induction arts as [|a arts IH]; simpl; [reflexivity|].
  intros H. apply orb_false_iff in H as [H1 H2].
  rewrite replace_absent by exact H1. exact (IH H2).
Qed.

Lemma remove_length (arts : list str) (s : str) :
  List.length (remove_artifacts arts s) <= List.length s.
Proof.
  unfold remove_artifacts. revert s.
  induction arts as [|a arts IH]; intros s; simpl; [lia|].
  specialize (IH (replace a [] s)). pose proof (replace_length a s). lia.
Qed.

Lemma remove_shrinks (arts : list str) (s : str) :
  Forall (fun a => a <> []) arts ->
  existsb (fun a => contains a s) arts = true ->
  List.length (remove_artifacts arts s) < List.length s.
Proof.
  intros Hne. revert s. induction Hne as [|a arts Ha Hne IH]; intros s; simpl;
    [discriminate|].
  intros H. fold (remove_artifacts arts (replace a [] s)).
  pose proof (remove_length arts (replace a [] s)) as L.
  destruct (contains a s) eqn:C.
  - pose proof (@replace_shrinks a s Ha C). lia.
  - simpl in H. rewrite replace_absent by exact C.
    rewrite replace_absent in L by exact C. apply IH. exact H.
Qed.

(** A piece of a text without artifact has no artifact either. *)
Lemma has_artifact_infix (out text : str) :
  infix out text -> has_artifact text = false -> has_artifact out = false.
Proof.
  unfold has_artifact. intros I.
  induction artifacts as [|a arts IH]; [reflexivity|].
  cbn [existsb]. intros H. apply orb_false_iff in H as [Ha Hr].
  rewrite (contains_false_infix a I Ha). exact (IH Hr).
Qed.

Lemma artifacts_nonempty : Forall (fun a => a <> []) artifacts.
Proof. repeat constructor; discriminate. Qed.

End RemoveArtifacts.

Section PostProcess.

Variable request : CompletionRequest.t.

(** The post-processor in closed form: the first block of non-blank lines
    of the artifact-stripped text, joined and trimmed. *)
Lemma post_process_closed (raw : str) :
  _post_process_completion raw request =
    strip (join [LF] (first_block
      (split LF (remove_artifacts artifacts (strip raw))))).
Proof.
  unfold _post_process_completion. cbv zeta.
  rewrite clean_loop_nil.
  destruct (drop_while _ _); [rewrite app_nil_r; reflexivity|].
  apply strip_join_gap.
Qed.

Lemma post_process_infix (raw : str) :
  infix (_post_process_completion raw request)
        (remove_artifacts artifacts (strip raw)).
Proof.
  rewrite post_process_closed.
  set (text := remove_artifacts artifacts (strip raw)).
  apply infix_trans with (join [LF] (first_block (split LF text)));
    [apply strip_infix|].
  destruct (first_block_run (split LF text)) as [A [C E]].
  set (B := first_block (split LF text)) in *.
  rewrite <- (join_split LF text), E.
  apply infix_join_block.
Qed.

Lemma post_process_trimmed (raw : str) :
  trimmed (_post_process_completion raw request).
Proof. apply strip_trimmed. Qed.

Lemma first_block_no_LF (text : str) :
  Forall (fun l => ~ In LF l) (first_block (split LF text)).
Proof.
  destruct (first_block_run (split LF text)) as [A [C E]].
  pose proof (split_no_sep LF text) as H. rewrite E in H.
  apply Forall_app in H as [_ H]. apply Forall_app in H as [H _]. exact H.
Qed.

Lemma post_process_lines (raw : str) :
  _post_process_completion raw request = [] \/
  Forall (fun l => is_blank l = false)
         (split LF (_post_process_completion raw request)).
Proof.
  rewrite post_process_closed.
  set (text := remove_artifacts artifacts (strip raw)).
  destruct (first_block (split LF text)) as [|b B] eqn:E; [left; reflexivity|].
  right. pose proof (first_block_nonblank (split LF text)) as Hb.
  pose proof (first_block_no_LF text) as Hs. rewrite E in Hb, Hs.
  rewrite split_strip_join by (discriminate || assumption).
  apply Forall_on_last; [intros x Hx; rewrite is_blank_rstrip; exact Hx|].
  apply Forall_on_first; [intros x Hx; rewrite is_blank_lstrip; exact Hx|].
  exact Hb.
Qed.

Lemma post_process_length (raw : str) :
  List.length (_post_process_completion raw request) <= List.length raw.
Proof.
  pose proof (infix_length (post_process_infix raw)).
  pose proof (remove_length artifacts (strip raw)).
  pose proof (infix_length (strip_infix raw)). lia.
Qed.

(** On a trimmed text without artifact whose lines are all non-blank the
    post-processor changes nothing. *)
Lemma post_process_fix (p : str) :
  trimmed p -> has_artifact p = false ->
  (p = [] \/ Forall (fun l => is_blank l = false) (split LF p)) ->
  _post_process_completion p request = p.
Proof.
  intros T A L. rewrite post_process_closed.
  rewrite (trimmed_strip T), (remove_absent artifacts p A).
  destruct L as [-> | L]; [reflexivity|].
  assert (F : first_block (split LF p) = split LF p).
  { unfold first_block. induction L as [|l ls Hl Hls IH]; [reflexivity|].
    simpl. rewrite Hl. simpl. rewrite Hl. simpl. f_equal.
    clear - Hls. induction Hls as [|x r Hx Hr IH]; [reflexivity|].
    simpl. rewrite Hx. simpl. f_equal. exact IH. }
  rewrite F, join_split. apply trimmed_strip, T.
Qed.

End PostProcess.

(* ================================================================= *)
(** ** Facts about binary64 arithmetic *)

Unset Implicit Arguments.

Section Rounding.

Lemma shr_1_nonneg mrs : (0 <= shr_m mrs)%Z -> (0 <= shr_m (shr_1 mrs))%Z.
Proof.
  destruct mrs as [m r s]. simpl. intros H.
  destruct m as [|[p|p|]|p]; simpl; lia.
Qed.

Lemma iter_pos_inv {A} (P : A -> Prop) (f : A -> A) :
  (forall x, P x -> P (f x)) -> forall n x, P x -> P (iter_pos f n x).
Proof.
  intros Hf. induction n as [n IH|n IH|]; intros x Hx; simpl; auto.
Qed.

Lemma shr_nonneg mrs e n :
  (0 <= shr_m mrs)%Z -> (0 <= shr_m (fst (shr mrs e n)))%Z.
Proof.
  intros H. destruct n; simpl; try exact H.
  apply iter_pos_inv with (P := fun x => (0 <= shr_m x)%Z); [apply shr_1_nonneg | exact H].
Qed.

Lemma shr_fexp_nonneg m e l :
  (0 <= m)%Z -> (0 <= shr_m (fst (shr_fexp prec emax m e l)))%Z.
Proof.
  intros H. unfold shr_fexp. apply shr_nonneg.
  destruct l as [|[]]; simpl; exact H.
Qed.

Lemma round_nearest_even_nonneg m l :
  (0 <= m)%Z -> (0 <= round_nearest_even m l)%Z.
Proof.
  intros H. destruct l as [|[]]; simpl; try lia.
  destruct (Z.even m); lia.
Qed.

(** Rounding a non-negative mantissa keeps the sign it is given. *)
Lemma binary_round_aux_sign s m e l :
  (0 <= m)%Z ->
  match binary_round_aux prec emax s m e l with
  | S754_zero s' | S754_infinity s' | S754_finite s' _ _ => s' = s
  | S754_nan => False
  end.
Proof.
  intros H. unfold binary_round_aux.
  pose proof (shr_fexp_nonneg m e l H) as H1.
  destruct (shr_fexp prec emax m e l) as [mrs' e'].
  simpl in H1.
  pose proof (shr_fexp_nonneg (round_nearest_even (shr_m mrs') (loc_of_shr_record mrs')) e' loc_Exact
    (round_nearest_even_nonneg _ _ H1)) as H2.
  destruct (shr_fexp prec emax (round_nearest_even _ _) e' loc_Exact) as [mrs'' e''].
  simpl in H2.
  destruct (shr_m mrs'') as [|p|p]; [reflexivity | | lia].
  destruct (e'' <=? emax - prec)%Z; reflexivity.
Qed.

Lemma binary_round_sign s m e :
  match binary_round prec emax s m e with
  | S754_zero s' | S754_infinity s' | S754_finite s' _ _ => s' = s
  | S754_nan => False
  end.
Proof.
  unfold binary_round.
  destruct (shl_align m e _) as [mz ez].
  apply binary_round_aux_sign. lia.
Qed.

Lemma binary_round_nonneg m e : sf_nonneg (binary_round prec emax false m e).
Proof.
  pose proof (binary_round_sign false m e) as B.
  destruct (binary_round prec emax false m e) as [s|s| |s ? ?];
    try destruct s; simpl; (exact I || congruence || contradiction).
Qed.

Lemma binary_normalize_nonneg m e :
  (0 <= m)%Z -> sf_nonneg (binary_normalize prec emax m e false).
Proof.
  intros H. destruct m as [|p|p]; simpl; [exact I | | lia].
  apply binary_round_nonneg.
Qed.

End Rounding.

Section Arithmetic.

Lemma binary_round_aux_sign_or_nan s m e l :
  match binary_round_aux prec emax s m e l with
  | S754_zero s' | S754_infinity s' | S754_finite s' _ _ => s' = s
  | S754_nan => True
  end.
Proof.
  unfold binary_round_aux.
  destruct (shr_fexp prec emax m e l) as [mrs' e'].
  destruct (shr_fexp prec emax _ e' loc_Exact) as [mrs'' e''].
  destruct (shr_m mrs''); [reflexivity | | exact I].
  destruct (e'' <=? emax - prec)%Z; reflexivity.
Qed.

Lemma rounded_nonneg_or_nan m e l :
  sf_nonneg_or_nan (binary_round_aux prec emax false m e l).
Proof.
  pose proof (binary_round_aux_sign_or_nan false m e l) as H.
  destruct (binary_round_aux prec emax false m e l); simpl; try exact I;
    subst; exact I.
Qed.

Lemma SFmul_nonneg x y :
  sf_nonneg_or_nan x -> sf_nonneg_or_nan y -> sf_nonneg_or_nan (SF64mul x y).
Proof.
  destruct x as [[]|[]| |[] mx ex], y as [[]|[]| |[] my ey]; simpl;
    intros Hx Hy; try contradiction; try exact I.
  apply rounded_nonneg_or_nan.
Qed.

Lemma SFdiv_nonneg x y :
  sf_nonneg_or_nan x -> sf_pos_or_nan y -> sf_nonneg_or_nan (SF64div x y).
Proof.
  destruct x as [[]|[]| |[] mx ex], y as [[]|[]| |[] my ey]; simpl;
    intros Hx Hy; try contradiction; try exact I.
  unfold SF64div, SFdiv.
  destruct (SFdiv_core_binary prec emax (Z.pos mx) ex (Z.pos my) ey) as [[mz ez] lz].
  apply rounded_nonneg_or_nan.
Qed.

Lemma SFadd_nonneg x y :
  sf_nonneg_or_nan x -> sf_nonneg_or_nan y -> sf_nonneg_or_nan (SF64add x y).
Proof.
  destruct x as [[]|[]| |[] mx ex], y as [[]|[]| |[] my ey]; simpl;
    intros Hx Hy; try contradiction; try exact I.
  match goal with |- sf_nonneg_or_nan (binary_round _ _ _ ?m ?e) =>
    pose proof (binary_round_nonneg m e) as H;
    destruct (binary_round prec emax false m e)
  end; simpl in *; (exact I || exact H).
Qed.

End Arithmetic.

Section Comparisons.
Local Open Scope float_scope.

Lemma leb_zero_nonneg x : sf_nonneg (Prim2SF x) -> (0 <=? x) = true.
Proof.
  rewrite FloatAxioms.leb_spec. change (Prim2SF 0) with (S754_zero false).
  destruct (Prim2SF x) as [s|[]| |[] m e]; simpl; try contradiction; reflexivity.
Qed.

Lemma leb_zero_nonneg_inv x : (0 <=? x) = true -> sf_nonneg (Prim2SF x).
Proof.
  rewrite FloatAxioms.leb_spec. change (Prim2SF 0) with (S754_zero false).
  destruct (Prim2SF x) as [s|[]| |[] m e]; simpl; try discriminate; intros _; exact I.
Qed.

Lemma ltb_leb x y : (x <? y) = true -> (x <=? y) = true.
Proof.
  rewrite FloatAxioms.ltb_spec, FloatAxioms.leb_spec. unfold SFltb, SFleb.
  destruct (SFcompare (Prim2SF x) (Prim2SF y)) as [[]|]; congruence.
Qed.

Lemma ltb_not_nan x y : (x <? y) = true -> Prim2SF x <> S754_nan.
Proof.
  rewrite FloatAxioms.ltb_spec. intros H E. rewrite E in H. discriminate.
Qed.

Lemma nonneg_of_or_nan x : sf_nonneg_or_nan x -> x <> S754_nan -> sf_nonneg x.
Proof. destruct x; simpl; auto; congruence. Qed.

(** [max(t, 0.1)] is strictly positive, or not a number. *)
Lemma not_below_tenth_pos t :
  (t <? 0.1) = false -> sf_pos_or_nan (Prim2SF t).
Proof.
  rewrite FloatAxioms.ltb_spec.
  change (Prim2SF 0.1) with (S754_finite false 7205759403792794 (-56)).
  destruct (Prim2SF t) as [s|[]| |[] m e]; simpl; try discriminate; intros _; exact I.
Qed.

End Comparisons.

Section Subtraction.
Local Open Scope Z_scope.

Lemma digits2_bounds m :
  2 ^ (Z.pos (digits2_pos m) - 1) <= Z.pos m < 2 ^ Z.pos (digits2_pos m).
Proof.
  induction m as [m IH|m IH|]; simpl digits2_pos.
  - rewrite Pos2Z.inj_succ.
    replace (Z.succ (Z.pos (digits2_pos m)) - 1) with (Z.succ (Z.pos (digits2_pos m) - 1)) by lia.
    rewrite !Z.pow_succ_r by lia. lia.
  - rewrite Pos2Z.inj_succ.
    replace (Z.succ (Z.pos (digits2_pos m)) - 1) with (Z.succ (Z.pos (digits2_pos m) - 1)) by lia.
    rewrite !Z.pow_succ_r by lia. lia.
  - simpl. lia.
Qed.

Lemma iter_xO_pow m d : Z.pos (Pos.iter xO m d) = Z.pos m * 2 ^ Z.pos d.
Proof.
  revert m. induction d as [|d IH] using Pos.peano_ind; intros m.
  - simpl. lia.
  - rewrite Pos.iter_succ, Pos2Z.inj_succ, Z.pow_succ_r by lia.
    rewrite Pos2Z.inj_xO, IH. lia.
Qed.

Lemma shl_align_value m e e' :
  e' <= e -> Z.pos (fst (shl_align m e e')) = Z.pos m * 2 ^ (e - e').
Proof.
  intros H. unfold shl_align.
  destruct (e' - e) as [|d|d] eqn:E.
  - replace (e - e') with 0 by lia. simpl. lia.
  - lia.
  - replace (e - e') with (Z.pos d) by lia. simpl fst. apply iter_xO_pow.
Qed.

Lemma bounded_mantissa m e :
  bounded prec emax m e = true ->
  Z.pos m < 2 ^ 53 /\ (-1074 < e -> 2 ^ 52 <= Z.pos m) /\ -1074 <= e.
Proof.
  unfold bounded, canonical_mantissa, fexp, SpecFloat.emin, prec, emax.
  intros H. apply andb_prop in H as [H _]. apply Z.eqb_eq in H.
  pose proof (digits2_bounds m) as [Hl Hu].
  set (d := Z.pos (digits2_pos m)) in *.
  assert (Hd : d <= 53) by lia.
  split; [|split].
  - apply Z.lt_le_trans with (2 ^ d); [exact Hu|].
    apply Z.pow_le_mono_r; lia.
  - intros He. assert (d = 53) by lia. subst d.
    replace 52 with (Z.pos (digits2_pos m) - 1) by lia. exact Hl.
  - lia.
Qed.

(** With equal signs, the order of two valid floats is the order of their
    mantissas once aligned on the smaller exponent. *)
Lemma aligned_le mx ex my ey :
  bounded prec emax mx ex = true -> bounded prec emax my ey = true ->
  ey < ex \/ (ey = ex /\ Z.pos my <= Z.pos mx) ->
  Z.pos (fst (shl_align my ey (Z.min ex ey)))
    <= Z.pos (fst (shl_align mx ex (Z.min ex ey))).
Proof.
  intros Bx By H.
  rewrite !shl_align_value by lia.
  destruct H as [H | [-> H]].
  - rewrite Z.min_r by lia. rewrite Z.sub_diag. simpl (2 ^ 0).
    destruct (bounded_mantissa _ _ Bx) as [_ [Nx _]].
    destruct (bounded_mantissa _ _ By) as [Uy [_ Ly]].
    assert (P : 2 ^ 1 <= 2 ^ (ex - ey)) by (apply Z.pow_le_mono_r; lia).
    specialize (Nx ltac:(lia)).
    change (2 ^ 53) with (2 ^ 52 * 2 ^ 1) in Uy. nia.
  - rewrite Z.min_id, Z.sub_diag. simpl (2 ^ 0). lia.
Qed.

Lemma SFsub_nonneg x y :
  valid_binary x = true -> valid_binary y = true ->
  sf_finite x -> sf_finite y ->
  SFleb y x = true -> sf_nonneg (SF64sub x y).
Proof.
  destruct x as [sx|sx| |sx mx ex], y as [sy|sy| |sy my ey];
    try contradiction; intros Vx Vy _ _ L.
  - destruct sx, sy; exact I.
  - destruct sy; [exact I | discriminate].
  - destruct sx; [discriminate | exact I].
  - unfold SF64sub, SFsub. apply binary_normalize_nonneg.
    simpl in Vx, Vy.
    unfold SFleb, SFcompare in L.
    destruct sx, sy; simpl cond_Zopp; try discriminate; try lia.
    + (* both negative *)
      assert (H : ex < ey \/ (ex = ey /\ Z.pos mx <= Z.pos my)).
      { destruct (Z.compare_spec ey ex) as [E|E|E]; try discriminate; [|lia].
        right. split; [lia|].
        change (Pos.compare_cont Eq my mx) with (Pos.compare my mx) in L.
        destruct (Pos.compare_spec my mx); simpl in L; try discriminate; lia. }
      pose proof (aligned_le _ _ _ _ Vy Vx H) as A.
      rewrite (Z.min_comm ey ex) in A. lia.
    + (* both positive *)
      assert (H : ey < ex \/ (ey = ex /\ Z.pos my <= Z.pos mx)).
      { destruct (Z.compare_spec ey ex) as [E|E|E]; try discriminate; [|lia].
        right. split; [lia|].
        change (Pos.compare_cont Eq my mx) with (Pos.compare my mx) in L.
        destruct (Pos.compare_spec my mx); simpl in L; try discriminate; lia. }
      pose proof (aligned_le _ _ _ _ Vx Vy H) as A. lia.
Qed.

End Subtraction.

Section Primitive.
Local Open Scope float_scope.

Lemma is_finite_spec x : is_finite x = true -> sf_finite (Prim2SF x).
Proof.
  unfold is_finite, Prim2SF. intros H.
  apply negb_true_iff, orb_false_iff in H as [N F].
  rewrite N, F.
  destruct (PrimFloat.is_zero x); [exact I|].
  destruct (Z.frexp x) as [r e].
  destruct (shr_fexp _ _ _ _ _) as [s e'].
  destruct (shr_m s); exact I.
Qed.

(** The difference of two finite clock readings taken in order. *)
Lemma sub_nonneg x y :
  is_finite x = true -> is_finite y = true -> (y <=? x) = true ->
  (0 <=? x - y) = true.
Proof.
  intros Fx Fy L. apply leb_zero_nonneg. rewrite FloatAxioms.sub_spec.
  rewrite FloatAxioms.leb_spec in L.
  apply SFsub_nonneg; auto using Prim2SF_valid, is_finite_spec.
Qed.

End Primitive.

Section Confidence.
Local Open Scope float_scope.

Lemma nonneg_weaken x : sf_nonneg x -> sf_nonneg_or_nan x.
Proof. destruct x; simpl; auto. Qed.

Lemma float_of_len_nonneg n : sf_nonneg_or_nan (Prim2SF (float_of_len n)).
Proof.
  unfold float_of_len. rewrite of_uint63_spec.
  apply nonneg_weaken, binary_normalize_nonneg.
  apply Uint63.to_Z_bounded.
Qed.

Lemma py_max_tenth_pos t : sf_pos_or_nan (Prim2SF (py_max t 0.1)).
Proof.
  unfold py_max. destruct (t <? 0.1) eqn:E.
  - vm_compute. exact I.
  - apply not_below_tenth_pos. exact E.
Qed.

(** The divisor of line 92 is never zero. *)
Lemma py_max_tenth_nonzero t : (py_max t 0.1 =? 0) = false.
Proof.
  pose proof (py_max_tenth_pos t) as H.
  rewrite FloatAxioms.eqb_spec. change (Prim2SF 0) with (S754_zero false).
  destruct (Prim2SF (py_max t 0.1)) as [s|[]| |[] m e]; simpl in *;
    try contradiction; reflexivity.
Qed.

Lemma weighted_sum_nonneg n t :
  sf_nonneg_or_nan
    (Prim2SF ((float_of_len n / 100) * 0.8 + (1 / py_max t 0.1) * 0.2)).
Proof.
  rewrite FloatAxioms.add_spec, !FloatAxioms.mul_spec, !FloatAxioms.div_spec.
  apply SFadd_nonneg; apply SFmul_nonneg.
  - apply SFdiv_nonneg; [apply float_of_len_nonneg | vm_compute; exact I].
  - vm_compute. exact I.
  - apply SFdiv_nonneg; [vm_compute; exact I | apply py_max_tenth_pos].
  - vm_compute. exact I.
Qed.

Lemma confidence_bounds n t :
  (0 <=? ConfidenceEstimator n t) = true /\
  (ConfidenceEstimator n t <=? 0.95) = true.
Proof.
  unfold ConfidenceEstimator, py_min.
  set (x := (float_of_len n / 100) * 0.8 + (1 / py_max t 0.1) * 0.2).
  pose proof (weighted_sum_nonneg n t) as H. fold x in H.
  destruct (x <? 0.95) eqn:E.
  - split; [|apply ltb_leb; exact E].
    apply leb_zero_nonneg, nonneg_of_or_nan; [exact H|].
    exact (ltb_not_nan _ _ E).
  - split; reflexivity.
Qed.

Example confidence_example : ConfidenceEstimator 50 0.5 = 0.8.
Proof. vm_compute. reflexivity. Qed.

End Confidence.

Set Implicit Arguments.

(* ================================================================= *)
(** ** The completion path, step by step *)

#[local] Arguments _post_process_completion : simpl never.
#[local] Arguments _prepare_prompt : simpl never.
#[local] Arguments strip : simpl never.
#[local] Arguments py : simpl never.
#[local] Arguments firstn : simpl never.
#[local] Arguments ConfidenceEstimator : simpl never.
#[local] Arguments exn_str : simpl never.

Section CompletionPath.

Variable env : Env.
Variable request : CompletionRequest.t.

(** Line 92 never raises: its value is the estimator's. *)
Lemma confidence_of_total (completion : str) (processing_time : float) :
  confidence_of completion processing_time =
    Return (ConfidenceEstimator (List.length completion) processing_time).
Proof.
  unfold confidence_of, truediv.
  change (100 =? 0)%float with false. cbv iota.
  rewrite py_max_tenth_nonzero. reflexivity.
Qed.

(** [generate_completion] on a loaded manager, by the backend's answer. *)
Lemma generate_completion_ready (me : CodeLlamaInference) (tr : list event) :
  model_loaded me = true ->
  let t0 := clock env tr in
  let h1 := tr ++ [TimeTime t0] in
  let prompt := _prepare_prompt request in
  let options := decoding_options me request in
  let h2 := h1 ++ [ClientGenerate (model_name me) prompt options] in
  generate_completion env request {| self := me; trace := tr |} =
    match client_generate env h1 (model_name me) prompt options with
    | Return response =>
        let t1 := clock env h2 in
        let processing_time := (t1 - t0)%float in
        let completion := _post_process_completion (strip response) request in
        (Return (completion, processing_time),
         {| self := me;
            trace := h2 ++ [TimeTime t1; PostProcess (strip response);
                            Log DEBUG (MsgGenerated processing_time
                                         (firstn 50 completion))] |})
    | Raise e =>
        (Raise e,
         {| self := me; trace := h2 ++ [Log ERROR (MsgGenerateFailed e)] |})
    end.
Proof.
  intros L. cbv zeta.
  cbv beta iota zeta delta [generate_completion bind gets try_except time_time
    generate emit logger modify lift ret raise self trace].
  rewrite L. cbv beta iota delta [negb]. fold (decoding_options me request).
  destruct (client_generate env _ _ _ _) as [response|e];
    rewrite <- !app_assoc; reflexivity.
Qed.

(** What a 200 answer of [POST /complete] tells about the run. *)
Lemma get_completion_inv (s s' : Server) (resp : CompletionResponse.t) :
  get_completion env request s = (Return resp, s') ->
  exists me response,
    inference_engine s = Some me /\ model_loaded me = true /\
    let t0 := clock env (events s) in
    let h1 := events s ++ [TimeTime t0] in
    let prompt := _prepare_prompt request in
    let options := decoding_options me request in
    let h2 := h1 ++ [ClientGenerate (model_name me) prompt options] in
    let t1 := clock env h2 in
    client_generate env h1 (model_name me) prompt options = Return response /\
    CompletionResponse.suggestion resp =
      _post_process_completion (strip response) request /\
    CompletionResponse.processing_time resp = (t1 - t0)%float /\
    CompletionResponse.confidence resp =
      ConfidenceEstimator (List.length (CompletionResponse.suggestion resp))
                          (CompletionResponse.processing_time resp) /\
    events s' =
      h2 ++ [TimeTime t1; PostProcess (strip response);
             Log DEBUG (MsgGenerated (CompletionResponse.processing_time resp)
                          (firstn 50 (CompletionResponse.suggestion resp)))].
Proof.
  destruct s as [eng st tr].
  cbv beta iota zeta delta [get_completion bind gets raise try_except call
    is_model_loaded inference_engine events start_time].
  destruct eng as [me|]; [|discriminate].
  destruct (model_loaded me) eqn:L; cbv beta iota delta [negb]; [|discriminate].
  rewrite (generate_completion_ready me tr L). cbv zeta.
  destruct (client_generate env _ _ _ _) as [response|e] eqn:G.
  - cbv beta iota zeta delta [lift ret self trace].
    rewrite confidence_of_total. intros H.
    pose proof (f_equal snd H) as H2. cbv beta iota delta [snd] in H2.
    pose proof (f_equal (fun r => match fst r with
                                  | Return a => a
                                  | Raise _ => resp
                                  end) H) as H1.
    cbv beta iota delta [fst] in H1. clear H. subst resp s'.
    exists me, response.
    cbv beta iota zeta delta [CompletionResponse.suggestion
      CompletionResponse.processing_time CompletionResponse.confidence
      inference_engine events].
    repeat split; try reflexivity; assumption.
  - cbv beta iota zeta delta [emit_s modify raise bind]. discriminate.
Qed.

End CompletionPath.

Section Initialization.

Variable env : Env.

(** [initialize] when the model is not listed and the pull raises: the
    failure is logged, and the probe generation goes ahead. *)
Lemma initialize_pull_failed (me : CodeLlamaInference) (tr : list event)
    (names : list str) (e : exn) :
  let name := model_name me in
  let h1 := tr ++ [ClientList; Log INFO (MsgNotFoundPulling name);
                   Log INFO (MsgPulling name)] in
  let h2 := h1 ++ [ClientPull name; Log ERROR (MsgPullFailed e)] in
  let h3 := h2 ++ [ClientGenerate name (py "def hello():") probe_options] in
  client_list env tr = Return names ->
  str_in name names = false ->
  client_pull env h1 name = Raise e ->
  initialize env {| self := me; trace := tr |} =
    match client_generate env h2 name (py "def hello():") probe_options with
    | Return _ =>
        (Return true,
         {| self := {| config := config me; model_name := name;
                       model_loaded := true |};
            trace := h3 ++ [Log INFO (MsgLoaded name)] |})
    | Raise e' =>
        (Return false,
         {| self := {| config := config me; model_name := name;
                       model_loaded := false |};
            trace := h3 ++ [Log ERROR (MsgInitFailed e')] |})
    end.
Proof.
  cbv zeta. intros Hl Hn Hp.
  cbv beta iota zeta delta [initialize pull_model list_models pull generate
    bind gets try_except emit logger modify lift ret raise set_model_loaded
    self trace].
  rewrite Hl. cbv beta iota. rewrite Hn. cbv beta iota delta [negb].
  rewrite <- !app_assoc. cbn [app].
  rewrite Hp. cbv beta iota.
  rewrite <- !app_assoc. cbn [app]. fold probe_options.
  destruct (client_generate env _ _ _ _); cbv beta iota;
    rewrite <- ?app_assoc; reflexivity.
Qed.

(** [GET /health] always answers, with the flag of the current manager. *)
Lemma health_check_returns (s : Server) :
  exists body s',
    health_check env s = (Return body, s') /\
    HealthResponse.status body = py "healthy" /\
    HealthResponse.model_loaded body =
      match inference_engine s with
      | Some me => model_loaded me
      | None => false
      end /\
    inference_engine s' = inference_engine s.
Proof.
  destruct s as [eng st tr]. eexists. eexists.
  cbv beta iota zeta delta [health_check time_time_s bind gets emit_s modify
    ret inference_engine start_time events is_model_loaded
    HealthResponse.status HealthResponse.model_loaded].
  repeat split.
Qed.

End Initialization.

(* ================================================================= *)
(** ** The model on known values *)

Section Examples.

Example replace_example :
  replace (py "ab") (py "X") (py "ababcab") = py "XXcX"
  /\ replace [] (py "-") (py "abc") = py "-a-b-c-".
Proof. split; reflexivity. Qed.

Example split_example :
  split LF (py "a" ++ [LF; LF] ++ py " b" ++ [LF]) = [py "a"; []; py " b"; []].
Proof. reflexivity. Qed.

Example strip_example :
  strip ([LF] ++ py "    print('hi')" ++ [LF; LF]) = py "print('hi')".
Proof. reflexivity. Qed.

(** The example scenario of the specification, end to end. *)
Example hello_scenario :
  fst (get_completion env_hi hello_request
         {| inference_engine := Some ready_engine; start_time := 0%float;
            events := [] |}) =
    Return {| CompletionResponse.suggestion := py "print('hi')";
              CompletionResponse.confidence := 0.188%float;
              CompletionResponse.processing_time := 2%float |}.
Proof. vm_compute. reflexivity. Qed.

(** The fallback of [or]: an absent value and a zero both give way to
    the default, any other value is kept. *)
Lemma temperature_or_cases (x : option float) (default : float) :
  temperature_or x default =
    match x with
    | None => default
    | Some t => if (t =? 0)%float then default else t
    end.
Proof.
  destruct x as [t|]; [|reflexivity].
  unfold temperature_or, float_truthy. destruct (t =? 0)%float; reflexivity.
Qed.

Lemma max_tokens_or_cases (x : option Z) (default : Z) :
  max_tokens_or x default =
    match x with
    | None => default
    | Some 0%Z => default
    | Some n => n
    end.
Proof. destruct x as [[|n|n]|]; reflexivity. Qed.

End Examples.

(* ================================================================= *)
(** ** The claims of the specification *)

(** C1: a completion request that arrives while the manager is not loaded
    makes [generate_completion] raise "Model not loaded" with the object
    and the trace unchanged (so no backend call was made), and
    [POST /complete] answers with status 503, again without any event. *)
Theorem not_ready_is_503 (env : Env) (request : CompletionRequest.t)
    (me : CodeLlamaInference) (st : float) (tr : list event) :
  model_loaded me = false ->
  generate_completion env request {| self := me; trace := tr |} =
    (Raise (RuntimeError (py "Model not loaded")), {| self := me; trace := tr |})
  /\ get_completion env request
       {| inference_engine := Some me; start_time := st; events := tr |} =
       (Raise (HTTPException 503 (py "Model not loaded")),
        {| inference_engine := Some me; start_time := st; events := tr |})
  /\ http_status (fst (get_completion env request
       {| inference_engine := Some me; start_time := st; events := tr |})) = 503%Z.
Proof.
  intros L.
  assert (G : get_completion env request
       {| inference_engine := Some me; start_time := st; events := tr |} =
       (Raise (HTTPException 503 (py "Model not loaded")),
        {| inference_engine := Some me; start_time := st; events := tr |})).
  { cbv beta iota zeta delta [get_completion bind gets raise is_model_loaded
      inference_engine].
    rewrite L. reflexivity. }
  split; [|split].
  - cbv beta iota zeta delta [generate_completion bind gets raise self].
    rewrite L. reflexivity.
  - exact G.
  - rewrite G. reflexivity.
Qed.

Lemma not_ready_is_503_witness :
  model_loaded (__init__ ServerConfig.default) = false /\
  http_status (fst (get_completion env_down hello_request
    {| inference_engine := Some (__init__ ServerConfig.default);
       start_time := 0%float; events := [] |})) = 503%Z.
Proof.
  split; [reflexivity|].
  apply (@not_ready_is_503 env_down hello_request
           (__init__ ServerConfig.default) 0%float []).
  reflexivity.
Defined.

(** C2: the confidence of every 200 answer is the estimator's formula
    applied to the length of the returned suggestion and the returned
    processing time; for a length of 50 and a time of 0.5 it is 0.8. *)
Theorem confidence_is_estimator (env : Env) (request : CompletionRequest.t)
    (s s' : Server) (resp : CompletionResponse.t) :
  get_completion env request s = (Return resp, s') ->
  CompletionResponse.confidence resp =
    ConfidenceEstimator (List.length (CompletionResponse.suggestion resp))
                        (CompletionResponse.processing_time resp)
  /\ ConfidenceEstimator 50 0.5 = 0.8%float.
Proof.
  intros H. split; [|vm_compute; reflexivity].
  destruct (get_completion_inv _ _ _ H) as (me & response & _ & _ & K).
  cbv zeta in K. destruct K as (_ & _ & _ & K & _). exact K.
Qed.

Lemma confidence_is_estimator_witness :
  CompletionResponse.confidence
    {| CompletionResponse.suggestion :=
         py "return sum(value for value in values if value > 0)";
       CompletionResponse.confidence := 0.8%float;
       CompletionResponse.processing_time := 0.5%float |} =
    ConfidenceEstimator 50 0.5.
Proof.
  refine (proj1 (@confidence_is_estimator env_half_second hello_request
    {| inference_engine := Some ready_engine; start_time := 0%float; events := [] |}
    _ {| CompletionResponse.suggestion :=
           py "return sum(value for value in values if value > 0)";
         CompletionResponse.confidence := 0.8%float;
         CompletionResponse.processing_time := 0.5%float |} _)).
  vm_compute. reflexivity.
Defined.

(** C3 (evaluation at the failing input): a Ready manager with the default
    configuration, asked with an explicit temperature of 0.0, calls the
    backend with temperature 0.1, whatever the backend and the history. *)
Theorem zero_temperature_not_forwarded (env : Env) (tr : list event) :
  exists rest,
    trace (snd (generate_completion env zero_temperature_request
                  {| self := ready_engine; trace := tr |})) =
      tr ++ TimeTime (clock env tr)
         :: ClientGenerate (py "codellama:7b-code")
              (_prepare_prompt zero_temperature_request)
              {| num_predict := 100; temperature := 0.1%float;
                 top_p := Some 0.9%float;
                 stop := Some [[LF; LF]; py "```"; py "</code>"] |}
         :: rest.
Proof.
  rewrite (@generate_completion_ready env zero_temperature_request ready_engine tr
             eq_refl).
  cbv zeta.
  destruct (client_generate env _ _ _ _) as [response|e];
    cbv beta iota delta [snd trace]; rewrite <- !app_assoc;
    eexists; reflexivity.
Qed.

(** C4, as stated, fails: with a clock that advances one second per event
    the run returns a processing time of 2 seconds, while 4 seconds have
    passed from the start to the moment the post-processor has been called;
    the second clock reading precedes the post-processing. *)
Lemma post_processing_not_measured :
  let env := env_hi in
  let r := generate_completion env hello_request
             {| self := ready_engine; trace := [] |} in
  fst r = Return (py "print('hi')", 2%float)
  /\ elapsed_through_post_process env [] (trace (snd r)) = 4%float
  /\ fst r <> Return (py "print('hi')",
                      elapsed_through_post_process env [] (trace (snd r)))
  /\ map (fun ev => match ev with
                    | TimeTime _ => 1 | PostProcess _ => 2 | _ => 0
                    end) (trace (snd r)) = [1; 0; 1; 2; 0].
Proof.
  cbv zeta.
  assert (R : fst (generate_completion env_hi hello_request
                     {| self := ready_engine; trace := [] |}) =
              Return (py "print('hi')", 2%float)) by (vm_compute; reflexivity).
  assert (E : elapsed_through_post_process env_hi []
                (trace (snd (generate_completion env_hi hello_request
                               {| self := ready_engine; trace := [] |}))) =
              4%float) by (vm_compute; reflexivity).
  rewrite R, E. split; [reflexivity|]. split; [reflexivity|]. split.
  - intros H.
    pose proof (f_equal (fun o => match o with
                                  | Return (_, t) => PrimFloat.eqb t 2
                                  | Raise _ => true
                                  end) H) as K.
    vm_compute in K. discriminate K.
  - vm_compute. reflexivity.
Qed.

(** C4, amended: the processing time of a successful completion is the
    difference of two clock readings, one taken before the prompt is built
    and the backend is called, the other right after the backend's answer
    has been trimmed; the post-processor is called after the second
    reading, and only a debug log record follows it. *)
Theorem processing_time_measures_generate (env : Env)
    (request : CompletionRequest.t) (me : CodeLlamaInference)
    (tr : list event) (completion : str) (processing_time : float) (o' : Obj) :
  generate_completion env request {| self := me; trace := tr |} =
    (Return (completion, processing_time), o') ->
  exists response,
    let t0 := clock env tr in
    let h2 := (tr ++ [TimeTime t0])
              ++ [ClientGenerate (model_name me) (_prepare_prompt request)
                    (decoding_options me request)] in
    let t1 := clock env h2 in
    client_generate env (tr ++ [TimeTime t0]) (model_name me)
      (_prepare_prompt request) (decoding_options me request) = Return response
    /\ processing_time = (t1 - t0)%float
    /\ completion = _post_process_completion (strip response) request
    /\ trace o' =
         h2 ++ [TimeTime t1; PostProcess (strip response);
                Log DEBUG (MsgGenerated processing_time (firstn 50 completion))].
Proof.
  destruct (model_loaded me) eqn:L.
  - rewrite (generate_completion_ready env request me tr L). cbv zeta.
    destruct (client_generate env _ _ _ _) as [response|e] eqn:G; intros H.
    + exists response.
      pose proof (f_equal snd H) as H2. cbv beta iota delta [snd] in H2.
      pose proof (f_equal (fun r => match fst r with
                                    | Return a => a
                                    | Raise _ => (completion, processing_time)
                                    end) H) as H1.
      cbv beta iota delta [fst] in H1. clear H.
      pose proof (f_equal fst H1) as Hc. pose proof (f_equal snd H1) as Hp.
      cbv beta iota delta [fst snd] in Hc, Hp. subst completion processing_time o'.
      repeat split.
    + pose proof (f_equal fst H) as H1. discriminate H1.
  - intros H. exfalso. revert H.
    cbv beta iota zeta delta [generate_completion bind gets raise self].
    rewrite L. cbv beta iota delta [negb]. intros H.
    pose proof (f_equal fst H) as H1. discriminate H1.
Qed.

Lemma processing_time_measures_generate_witness :
  exists response,
    client_generate env_half_second [TimeTime 1%float]
      (py "codellama:7b-code") (_prepare_prompt hello_request)
      (decoding_options ready_engine hello_request) = Return response
    /\ 0.5%float = (1.5 - 1)%float.
Proof.
  destruct (@processing_time_measures_generate env_half_second hello_request
              ready_engine []
              (py "return sum(value for value in values if value > 0)")
              0.5%float
              (snd (generate_completion env_half_second hello_request
                      {| self := ready_engine; trace := [] |})))
    as [response [G [P _]]].
  - vm_compute. reflexivity.
  - exists response. split; [exact G | exact P].
Defined.

(** C5, as stated, fails: removing a token can splice a new one together;
    the output for [<MI<MID>D>] is the artifact token [<MID>]. *)
Lemma artifact_survives :
  _post_process_completion (py "<MI<MID>D>") hello_request = py "<MID>"
  /\ In (py "<MID>") artifacts
  /\ contains (py "<MID>")
       (_post_process_completion (py "<MI<MID>D>") hello_request) = true.
Proof. vm_compute. repeat split. left. reflexivity. Qed.

(** C5, amended: with [text] the trimmed input after one left-to-right
    removal pass per token, in list order, the output is the first block of
    non-blank lines of [text], joined and trimmed (nothing behind the first
    gap is kept); it is a contiguous piece of [text], so it contains an
    artifact token only if [text] still does. *)
Theorem post_process_first_block (raw : str) (request : CompletionRequest.t) :
  let text := remove_artifacts artifacts (strip raw) in
  let out := _post_process_completion raw request in
  out = strip (join [LF] (first_block (split LF text)))
  /\ infix out text
  /\ (has_artifact text = false -> has_artifact out = false).
Proof.
  cbv zeta. split; [apply post_process_closed|].
  split; [apply post_process_infix|].
  apply has_artifact_infix, post_process_infix.
Qed.

(** C6, as stated, fails: the output for [<MI<MID>D>] is [<MID>], and the
    post-processor turns that into the empty string. *)
Lemma post_process_not_idempotent :
  _post_process_completion
    (_post_process_completion (py "<MI<MID>D>") hello_request) hello_request
  <> _post_process_completion (py "<MI<MID>D>") hello_request.
Proof. vm_compute. discriminate. Qed.

(** C6, amended: applying the post-processor to its own output changes
    nothing exactly when that output contains no artifact token. *)
Theorem post_process_idempotent_iff (s : str) (request : CompletionRequest.t) :
  _post_process_completion (_post_process_completion s request) request =
    _post_process_completion s request
  <-> has_artifact (_post_process_completion s request) = false.
Proof.
  set (p := _post_process_completion s request).
  assert (T : trimmed p) by apply post_process_trimmed.
  split.
  - intros E. destruct (has_artifact p) eqn:A; [exfalso | reflexivity].
    pose proof (remove_shrinks p artifacts_nonempty A) as L1.
    pose proof (infix_length (post_process_infix request p)) as L2.
    rewrite (trimmed_strip T) in L2. rewrite E in L2. lia.
  - intros A. apply post_process_fix; [exact T | exact A |].
    apply post_process_lines.
Qed.

(** C7: the prompt is the prefix marker and a space, the file name, a line
    feed, the code and the suffix and middle markers; two requests with the
    same code and file name get the same prompt, whatever their other
    fields. *)
Theorem prepare_prompt_by_code_and_filename
    (code filename : str) (language language' : str)
    (position position' : list (str * Z))
    (max_tokens max_tokens' : option Z) (temperature temperature' : option float) :
  let request :=
    CompletionRequest.Build code language position filename
                            max_tokens temperature in
  let request' :=
    CompletionRequest.Build code language' position' filename
                            max_tokens' temperature' in
  _prepare_prompt request = py "<PRE> " ++ filename ++ [LF] ++ code ++ py "<SUF><MID>"
  /\ _prepare_prompt request' = _prepare_prompt request.
Proof. split; reflexivity. Qed.

(** C10: the suggestion has no whitespace at either end, and it is empty or
    every one of its lines contains a character that is not whitespace. *)
Theorem post_process_no_blank_line (raw : str) (request : CompletionRequest.t) :
  let out := _post_process_completion raw request in
  trimmed out
  /\ (out = [] \/
      Forall (fun line => exists c, In c line /\ isspace c = false)
             (split LF out)).
Proof.
  cbv zeta. split; [apply post_process_trimmed|].
  destruct (post_process_lines request raw) as [E|L]; [left; exact E|].
  right. eapply Forall_impl; [|exact L].
  intros line B. unfold is_blank in B.
  induction line as [|c line IH]; [discriminate|].
  simpl in B. destruct (isspace c) eqn:Hc.
  - destruct (IH B) as [d [Hd Hs]]. exists d. split; [right; exact Hd | exact Hs].
  - exists c. split; [left; reflexivity | exact Hc].
Qed.

(** C8: when the clock readings are finite and never go back, every 200
    answer of [POST /complete] has a confidence between 0 and 0.95 and a
    processing time that is not negative. *)
Theorem response_within_bounds (env : Env) (request : CompletionRequest.t)
    (s s' : Server) (resp : CompletionResponse.t) :
  (forall h, is_finite (clock env h) = true) ->
  (forall h h', (clock env h <=? clock env (h ++ h'))%float = true) ->
  get_completion env request s = (Return resp, s') ->
  (0 <=? CompletionResponse.confidence resp)%float = true
  /\ (CompletionResponse.confidence resp <=? 0.95)%float = true
  /\ (0 <=? CompletionResponse.processing_time resp)%float = true.
Proof.
  intros Hfin Hmono H.
  destruct (get_completion_inv _ _ _ H) as (me & response & _ & _ & K).
  cbv zeta in K. destruct K as (_ & _ & Hp & Hc & _).
  rewrite Hc.
  destruct (confidence_bounds
              (List.length (CompletionResponse.suggestion resp))
              (CompletionResponse.processing_time resp)) as [B1 B2].
  split; [exact B1 | split; [exact B2|]].
  rewrite Hp. apply sub_nonneg; try apply Hfin.
  rewrite <- app_assoc. apply Hmono.
Qed.

Lemma response_within_bounds_witness :
  (0 <=? 0.8)%float = true /\ (0.8 <=? 0.95)%float = true
  /\ (0 <=? 0.5)%float = true.
Proof.
  refine (@response_within_bounds env_half_second hello_request
    {| inference_engine := Some ready_engine; start_time := 0%float; events := [] |}
    (snd (get_completion env_half_second hello_request
            {| inference_engine := Some ready_engine; start_time := 0%float;
               events := [] |}))
    {| CompletionResponse.suggestion :=
         py "return sum(value for value in values if value > 0)";
       CompletionResponse.confidence := 0.8%float;
       CompletionResponse.processing_time := 0.5%float |} _ _ _).
  - intros h. simpl. destruct (existsb is_generate h); reflexivity.
  - intros h h'. simpl. rewrite existsb_app.
    destruct (existsb is_generate h), (existsb is_generate h'); reflexivity.
  - vm_compute. reflexivity.
Defined.

(** C9, as stated, fails: with a backend that lists no model and cannot
    pull but does generate, [initialize] returns [True] and leaves
    [model_loaded] set; the health endpoint then reports it as loaded. *)
Lemma pull_failure_can_end_ready :
  let me := __init__ ServerConfig.default in
  let r := initialize env_no_pull {| self := me; trace := [] |} in
  str_in (model_name me) [] = false
  /\ client_pull env_no_pull
       [ClientList; Log INFO (MsgNotFoundPulling (model_name me));
        Log INFO (MsgPulling (model_name me))] (model_name me) =
     Raise (BackendError (py "pull failed"))
  /\ fst r = Return true
  /\ model_loaded (self (snd r)) = true
  /\ match fst (health_check env_no_pull
                  {| inference_engine := Some (self (snd r));
                     start_time := 0%float; events := trace (snd r) |}) with
     | Return body => HealthResponse.model_loaded body
     | Raise _ => false
     end = true.
Proof. vm_compute. repeat split. Qed.

(** C9, amended: when the configured model is not listed and the pull
    raises, [initialize] still returns without raising; the pull failure is
    logged and the probe generation decides the outcome: the returned flag
    and [model_loaded] are true exactly when the probe returns, and the
    health endpoint then answers 200 with that flag and status "healthy". *)
Theorem pull_failure_is_not_fatal (env : Env) (me : CodeLlamaInference)
    (tr : list event) (names : list str) (e : exn) (st : float) :
  let name := model_name me in
  let h1 := tr ++ [ClientList; Log INFO (MsgNotFoundPulling name);
                   Log INFO (MsgPulling name)] in
  let h2 := h1 ++ [ClientPull name; Log ERROR (MsgPullFailed e)] in
  let ok := match client_generate env h2 name (py "def hello():") probe_options with
            | Return _ => true
            | Raise _ => false
            end in
  client_list env tr = Return names ->
  str_in name names = false ->
  client_pull env h1 name = Raise e ->
  exists o' body s',
    initialize env {| self := me; trace := tr |} = (Return ok, o')
    /\ model_loaded (self o') = ok
    /\ health_check env {| inference_engine := Some (self o'); start_time := st;
                           events := trace o' |} = (Return body, s')
    /\ HealthResponse.model_loaded body = ok
    /\ HealthResponse.status body = py "healthy"
    /\ http_status (fst (health_check env
         {| inference_engine := Some (self o'); start_time := st;
            events := trace o' |})) = 200%Z.
Proof.
  cbv zeta. intros Hl Hn Hp.
  pose proof (@initialize_pull_failed env me tr names e Hl Hn Hp) as I.
  cbv zeta in I.
  destruct (client_generate env _ _ _ _) as [response|e'];
    match type of I with
    | _ = (_, ?o) =>
        exists o;
        destruct (health_check_returns env
                    {| inference_engine := Some (self o); start_time := st;
                       events := trace o |}) as (body & s' & Hh & Hs & Hm & _);
        exists body, s'; rewrite Hh;
        cbv beta iota delta [inference_engine self model_loaded] in Hm;
        repeat split; assumption || reflexivity
    end.
Qed.

Lemma pull_failure_is_not_fatal_witness :
  client_list env_down [] = Return []
  /\ str_in (model_name (__init__ ServerConfig.default)) [] = false
  /\ exists o',
       initialize env_down
         {| self := __init__ ServerConfig.default; trace := [] |} =
         (Return false, o')
       /\ model_loaded (self o') = false.
Proof.
  split; [reflexivity | split; [reflexivity|]].
  destruct (@pull_failure_is_not_fatal env_down (__init__ ServerConfig.default)
              [] [] (BackendError (py "pull failed")) 0%float
              eq_refl eq_refl eq_refl)
    as (o' & body & s' & I & L & _).
  exists o'. split; [exact I | exact L].
Defined.

(* ================================================================= *)
(** ** Further properties of the manager and the HTTP adapter *)

#[local] Arguments backend_calls : simpl never.

(** Unfolding of the monad and of the methods, one layer at a time. *)
Ltac run_method :=
  cbv beta iota zeta delta
    [initialize pull_model list_models pull generate generate_completion
     bind gets try_except emit logger modify lift ret raise set_model_loaded
     time_time self trace negb].

Ltac run_endpoint :=
  cbv beta iota zeta delta
    [get_completion health_check get_status restart_model lifespan_startup
     initialize_model call bind gets try_except emit_s set_engine modify lift
     ret raise time_time_s is_model_loaded inference_engine start_time events
     self trace negb fst snd].

Ltac flat_trace := rewrite <- ?app_assoc; cbn [app].

Section ManagerFacts.

Variable env : Env.

(** [initialize] always returns; it touches nothing of the object but the
    flag, which it sets to the value it returns. *)
Lemma initialize_frame (me : CodeLlamaInference) (tr : list event) :
  exists b new,
    initialize env {| self := me; trace := tr |} =
      (Return b,
       {| self := {| config := config me; model_name := model_name me;
                     model_loaded := b |};
          trace := tr ++ new |}).
Proof.
  run_method.
  destruct (client_list env tr) as [names|e]; cbv beta iota.
  - destruct (str_in (model_name me) names); cbv beta iota.
    + destruct (client_generate env _ _ _ _); cbv beta iota; flat_trace;
        eexists; eexists; reflexivity.
    + destruct (client_pull env _ _); cbv beta iota;
        destruct (client_generate env _ _ _ _); cbv beta iota; flat_trace;
        eexists; eexists; reflexivity.
  - flat_trace. eexists; eexists; reflexivity.
Qed.

End ManagerFacts.

(** X1: [initialize] never raises.  It returns a flag, leaves the
    configuration and the model name alone, sets [model_loaded] to the
    flag, only appends to the trace, starts with the list call and makes
    at most three backend calls. *)
Theorem initialize_never_raises (env : Env) (me : CodeLlamaInference)
    (tr : list event) :
  exists b new,
    initialize env {| self := me; trace := tr |} =
      (Return b,
       {| self := {| config := config me; model_name := model_name me;
                     model_loaded := b |};
          trace := tr ++ new |})
    /\ hd_error (backend_calls new) = Some ClientList
    /\ List.length (backend_calls new) <= 3.
Proof.
  run_method.
  destruct (client_list env tr) as [names|e]; cbv beta iota.
  - destruct (str_in (model_name me) names); cbv beta iota.
    + destruct (client_generate env _ _ _ _); cbv beta iota; flat_trace;
        eexists; eexists; (split; [reflexivity|]);
        (split; [reflexivity | cbv; lia]).
    + destruct (client_pull env _ _); cbv beta iota;
        destruct (client_generate env _ _ _ _); cbv beta iota; flat_trace;
        eexists; eexists; (split; [reflexivity|]);
        (split; [reflexivity | cbv; lia]).
  - flat_trace. eexists; eexists. split; [reflexivity|].
    split; [reflexivity | cbv; lia].
Qed.

(** X2: when the list call raises, [initialize] returns [False] and clears
    [model_loaded] (also on a manager that was loaded); it logs the error
    and attempts neither a pull nor a generation. *)
Theorem initialize_list_failure (env : Env) (me : CodeLlamaInference)
    (tr : list event) (e : exn) :
  client_list env tr = Raise e ->
  initialize env {| self := me; trace := tr |} =
    (Return false,
     {| self := {| config := config me; model_name := model_name me;
                   model_loaded := false |};
        trace := tr ++ [ClientList; Log ERROR (MsgInitFailed e)] |}).
Proof.
  intros H. run_method. rewrite H. cbv beta iota. flat_trace. reflexivity.
Qed.

Lemma initialize_list_failure_witness :
  client_list env_unreachable [] = Raise (BackendError (py "connection refused"))
  /\ model_loaded ready_engine = true
  /\ model_loaded (self (snd (initialize env_unreachable
                                {| self := ready_engine; trace := [] |}))) = false.
Proof.
  split; [reflexivity | split; [reflexivity|]].
  rewrite (@initialize_list_failure env_unreachable ready_engine []
             (BackendError (py "connection refused")) eq_refl).
  reflexivity.
Defined.

(** X3: when the configured model is listed, [initialize] does not pull:
    its backend calls are the list call and the probe generation, and it
    returns [True] exactly when the probe returns. *)
Theorem initialize_installed_no_pull (env : Env) (me : CodeLlamaInference)
    (tr : list event) (names : list str) :
  client_list env tr = Return names ->
  str_in (model_name me) names = true ->
  exists b new,
    initialize env {| self := me; trace := tr |} =
      (Return b,
       {| self := {| config := config me; model_name := model_name me;
                     model_loaded := b |};
          trace := tr ++ new |})
    /\ backend_calls new =
         [ClientList; ClientGenerate (model_name me) (py "def hello():") probe_options]
    /\ (b = true <->
        exists r, client_generate env (tr ++ [ClientList]) (model_name me)
                    (py "def hello():") probe_options = Return r).
Proof.
  intros Hl Hn. run_method. rewrite Hl. cbv beta iota. rewrite Hn.
  cbv beta iota. fold probe_options.
  destruct (client_generate env _ _ _ _) as [r|e] eqn:G; cbv beta iota;
    flat_trace; eexists; eexists; (split; [reflexivity|]);
    (split; [reflexivity|]).
  - split; [intros _; exists r; reflexivity | reflexivity].
  - split; [discriminate | intros [r [=]]].
Qed.

Lemma initialize_installed_no_pull_witness :
  str_in (model_name ready_engine) [py "codellama:7b-code"] = true
  /\ exists b new,
       initialize env_hi {| self := ready_engine; trace := [] |} =
         (Return b,
          {| self := {| config := config ready_engine;
                        model_name := model_name ready_engine;
                        model_loaded := b |};
             trace := [] ++ new |})
       /\ backend_calls new =
            [ClientList;
             ClientGenerate (model_name ready_engine) (py "def hello():")
               probe_options].
Proof.
  split; [reflexivity|].
  destruct (@initialize_installed_no_pull env_hi ready_engine []
              [py "codellama:7b-code"] eq_refl eq_refl)
    as (b & new & I & C & _).
  exists b, new. split; [exact I | exact C].
Defined.

(** X4: [pull_model] never raises: it makes one pull call, leaves the
    object alone and returns [True] exactly when the pull returns. *)
Theorem pull_model_never_raises (env : Env) (me : CodeLlamaInference)
    (tr : list event) :
  exists b new,
    pull_model env {| self := me; trace := tr |} =
      (Return b, {| self := me; trace := tr ++ new |})
    /\ backend_calls new = [ClientPull (model_name me)]
    /\ (b = true <->
        exists u, client_pull env (tr ++ [Log INFO (MsgPulling (model_name me))])
                    (model_name me) = Return u).
Proof.
  run_method.
  destruct (client_pull env _ _) as [u|e] eqn:P; cbv beta iota; flat_trace;
    eexists; eexists; (split; [reflexivity|]); (split; [reflexivity|]).
  - split; [intros _; exists u; reflexivity | reflexivity].
  - split; [discriminate | intros [u [=]]].
Qed.

Section EndpointFacts.

Variable env : Env.

(** [POST /complete], case by case. *)
Lemma get_completion_run (request : CompletionRequest.t) (s : Server) :
  get_completion env request s =
    match inference_engine s with
    | None =>
        (Raise (HTTPException 503 (py "Inference engine not initialized")), s)
    | Some me =>
        if model_loaded me then
          let t0 := clock env (events s) in
          let h2 := events s
                    ++ [TimeTime t0;
                        ClientGenerate (model_name me) (_prepare_prompt request)
                          (decoding_options me request)] in
          match client_generate env (events s ++ [TimeTime t0]) (model_name me)
                  (_prepare_prompt request) (decoding_options me request) with
          | Return response =>
              let t1 := clock env h2 in
              let completion := _post_process_completion (strip response) request in
              (Return {| CompletionResponse.suggestion := completion;
                         CompletionResponse.confidence :=
                           ConfidenceEstimator (List.length completion)
                                               (t1 - t0)%float;
                         CompletionResponse.processing_time := (t1 - t0)%float |},
               {| inference_engine := Some me; start_time := start_time s;
                  events := h2 ++ [TimeTime t1; PostProcess (strip response);
                                   Log DEBUG (MsgGenerated (t1 - t0)%float
                                                (firstn 50 completion))] |})
          | Raise e =>
              (Raise (HTTPException 500
                        (py "Failed to generate completion: " ++ exn_str e)),
               {| inference_engine := Some me; start_time := start_time s;
                  events := h2 ++ [Log ERROR (MsgGenerateFailed e);
                                   Log ERROR (MsgCompletionError e)] |})
          end
        else (Raise (HTTPException 503 (py "Model not loaded")), s)
    end.
Proof.
  destruct s as [[me|] st tr]; [|reflexivity].
  cbv beta iota zeta delta [get_completion bind gets raise try_except call
    is_model_loaded inference_engine events start_time].
  destruct (model_loaded me) eqn:L; cbv beta iota delta [negb]; [|reflexivity].
  rewrite (generate_completion_ready env request me tr L). cbv zeta.
  flat_trace.
  destruct (client_generate env _ _ _ _) as [response|e].
  - cbv beta iota zeta delta [lift ret self trace].
    rewrite confidence_of_total. flat_trace. reflexivity.
  - cbv beta iota zeta delta [emit_s modify raise bind self trace
      inference_engine events start_time].
    flat_trace. reflexivity.
Qed.

(** [GET /health], in full. *)
Lemma health_check_run (s : Server) :
  health_check env s =
    (Return {| HealthResponse.status := py "healthy";
               HealthResponse.model_loaded :=
                 match inference_engine s with
                 | Some me => model_loaded me
                 | None => false
                 end;
               HealthResponse.server_version := py "0.1.0";
               HealthResponse.uptime :=
                 (clock env (events s) - start_time s)%float |},
     {| inference_engine := inference_engine s; start_time := start_time s;
        events := events s ++ [TimeTime (clock env (events s))] |}).
Proof. destruct s as [eng st tr]. reflexivity. Qed.

End EndpointFacts.

(** X5: when the backend raises during a completion, [POST /complete]
    answers 500 with the exception's text in the detail; the backend was
    called once (nothing is retried), two error records are logged, and
    the manager stays loaded. *)
Theorem backend_failure_is_500 (env : Env) (request : CompletionRequest.t)
    (me : CodeLlamaInference) (st : float) (tr : list event) (e : exn) :
  model_loaded me = true ->
  client_generate env (tr ++ [TimeTime (clock env tr)]) (model_name me)
    (_prepare_prompt request) (decoding_options me request) = Raise e ->
  get_completion env request
    {| inference_engine := Some me; start_time := st; events := tr |} =
    (Raise (HTTPException 500 (py "Failed to generate completion: " ++ exn_str e)),
     {| inference_engine := Some me; start_time := st;
        events := tr ++ [TimeTime (clock env tr);
                         ClientGenerate (model_name me) (_prepare_prompt request)
                           (decoding_options me request);
                         Log ERROR (MsgGenerateFailed e);
                         Log ERROR (MsgCompletionError e)] |}).
Proof.
  intros L G. rewrite get_completion_run.
  cbv beta iota zeta delta [inference_engine events start_time].
  rewrite L, G. flat_trace. reflexivity.
Qed.

Lemma backend_failure_is_500_witness :
  model_loaded ready_engine = true
  /\ http_status (fst (get_completion env_unreachable hello_request
       {| inference_engine := Some ready_engine; start_time := 0%float;
          events := [] |})) = 500%Z.
Proof.
  split; [reflexivity|].
  rewrite (@backend_failure_is_500 env_unreachable hello_request ready_engine
             0%float [] (BackendError (py "connection refused"))
             eq_refl eq_refl).
  reflexivity.
Defined.

(** X6: the status of [POST /complete] is 503 exactly when there is no
    manager or it is not loaded; on a loaded manager it is 200 when the
    backend's generation returns and 500 when it raises. *)
Theorem completion_status (env : Env) (request : CompletionRequest.t)
    (s : Server) :
  http_status (fst (get_completion env request s)) =
    match inference_engine s with
    | None => 503%Z
    | Some me =>
        if model_loaded me
        then match client_generate env
                     (events s ++ [TimeTime (clock env (events s))])
                     (model_name me) (_prepare_prompt request)
                     (decoding_options me request) with
             | Return _ => 200%Z
             | Raise _ => 500%Z
             end
        else 503%Z
    end.
Proof.
  rewrite get_completion_run.
  destruct (inference_engine s) as [me|]; [|reflexivity].
  destruct (model_loaded me); [|reflexivity]. cbv zeta.
  destruct (client_generate env _ _ _ _); reflexivity.
Qed.

(** X7: a completion request never replaces or changes the manager and
    never touches the start time; it only appends to the trace, and among
    what it appends there is at most one backend call, a generation. *)
Theorem completion_leaves_manager (env : Env) (request : CompletionRequest.t)
    (s : Server) :
  exists new,
    snd (get_completion env request s) =
      {| inference_engine := inference_engine s; start_time := start_time s;
         events := events s ++ new |}
    /\ List.length (backend_calls new) <= 1
    /\ forallb is_generate (backend_calls new) = true.
Proof.
  rewrite get_completion_run. destruct s as [[me|] st tr];
    cbv beta iota zeta delta [inference_engine events start_time].
  - destruct (model_loaded me).
    + destruct (client_generate env _ _ _ _); cbv beta iota delta [snd];
        flat_trace; eexists; (split; [reflexivity|]);
        (split; [cbv; lia | reflexivity]).
    + exists []. rewrite app_nil_r. split; [reflexivity|].
      split; [cbv; lia | reflexivity].
  - exists []. rewrite app_nil_r. split; [reflexivity|].
    split; [cbv; lia | reflexivity].
Qed.

(** X8: [GET /health] always answers with status "healthy"; it only reads
    the clock (no backend call, no change to the manager), and it reports
    [model_loaded = false] exactly when a completion request in the same
    state would be answered 503. *)
Theorem health_reports_readiness (env : Env) (request : CompletionRequest.t)
    (s : Server) :
  exists body,
    health_check env s =
      (Return body,
       {| inference_engine := inference_engine s; start_time := start_time s;
          events := events s ++ [TimeTime (clock env (events s))] |})
    /\ HealthResponse.status body = py "healthy"
    /\ (HealthResponse.model_loaded body = false <->
        http_status (fst (get_completion env request s)) = 503%Z).
Proof.
  rewrite health_check_run. eexists. split; [reflexivity|].
  split; [reflexivity|].
  cbv beta iota delta [HealthResponse.model_loaded].
  rewrite get_completion_run.
  destruct (inference_engine s) as [me|]; [|split; reflexivity].
  destruct (model_loaded me); [|split; reflexivity]. cbv zeta.
  destruct (client_generate env _ _ _ _); cbv beta iota delta [fst http_status];
    split; discriminate.
Qed.

(** X9: on the same state, [GET /status] and [GET /health] report the same
    [model_loaded] flag and the same uptime and leave the same state; the
    model name and the settings that [/status] shows are those of the
    global configuration. *)
Theorem status_agrees_with_health (env : Env) (cfg : ServerConfig.t)
    (s : Server) :
  exists h st,
    fst (health_check env s) = Return h
    /\ fst (get_status env cfg s) = Return st
    /\ StatusResponse.model_loaded st = HealthResponse.model_loaded h
    /\ StatusResponse.uptime st = HealthResponse.uptime h
    /\ StatusResponse.model_name st = ServerConfig.model_name cfg
    /\ StatusResponse.max_tokens (StatusResponse.config st) =
         ServerConfig.max_tokens cfg
    /\ snd (get_status env cfg s) = snd (health_check env s).
Proof.
  destruct s as [eng st tr]. eexists. eexists.
  repeat split.
Qed.

(** X10: a restart never raises and discards the old manager: whatever
    manager the server had, it ends with a new one built from the
    configuration, whose flag is what [initialize] returned on it; the
    record "restarted successfully" is logged also when that flag is
    false. *)
Theorem restart_installs_fresh_manager (env : Env) (cfg : ServerConfig.t)
    (s : Server) :
  exists b new,
    initialize env {| self := __init__ cfg;
                      trace := events s ++ [Log INFO MsgRestarting] |} =
      (Return b,
       {| self := {| config := cfg; model_name := ServerConfig.model_name cfg;
                     model_loaded := b |};
          trace := (events s ++ [Log INFO MsgRestarting]) ++ new |})
    /\ restart_model env cfg s =
         (Return tt,
          {| inference_engine :=
               Some {| config := cfg; model_name := ServerConfig.model_name cfg;
                       model_loaded := b |};
             start_time := start_time s;
             events := ((events s ++ [Log INFO MsgRestarting]) ++ new)
                       ++ [Log INFO MsgRestarted] |}).
Proof.
  destruct (initialize_frame env (__init__ cfg)
              (events s ++ [Log INFO MsgRestarting])) as (b & new & I).
  exists b, new. split; [exact I|].
  destruct s as [eng st tr].
  cbv beta iota zeta delta [restart_model bind try_except emit_s set_engine
    modify call inference_engine start_time events].
  cbv beta iota zeta delta [events] in I. rewrite I. reflexivity.
Qed.

(** X11: a restart against a backend whose list call raises leaves the
    server not ready, even if it was Ready before: the next completion
    request is answered 503. *)
Theorem restart_on_dead_backend (env : Env) (cfg : ServerConfig.t)
    (request : CompletionRequest.t) (s : Server) (e : exn) :
  client_list env (events s ++ [Log INFO MsgRestarting]) = Raise e ->
  http_status (fst (get_completion env request
                      (snd (restart_model env cfg s)))) = 503%Z.
Proof.
  intros H. destruct s as [eng st tr].
  cbv beta iota zeta delta [events] in H.
  cbv beta iota zeta delta [restart_model bind try_except emit_s set_engine
    modify call inference_engine start_time events __init__].
  run_method. rewrite H. cbv beta iota delta [snd self trace].
  rewrite get_completion_run. reflexivity.
Qed.

Lemma restart_on_dead_backend_witness :
  http_status (fst (get_completion env_unreachable hello_request
    {| inference_engine := Some ready_engine; start_time := 0%float;
       events := [] |})) = 500%Z
  /\ http_status (fst (get_completion env_unreachable hello_request
       (snd (restart_model env_unreachable ServerConfig.default
               {| inference_engine := Some ready_engine; start_time := 0%float;
                  events := [] |})))) = 503%Z.
Proof.
  split; [vm_compute; reflexivity|].
  apply (@restart_on_dead_backend env_unreachable ServerConfig.default
           hello_request
           {| inference_engine := Some ready_engine; start_time := 0%float;
              events := [] |}
           (BackendError (py "connection refused"))).
  reflexivity.
Defined.


(** X13: the uptime that [GET /health] reports is not negative when the
    start time and the current clock reading are finite and in order. *)
Theorem uptime_not_negative (env : Env) (s : Server) :
  is_finite (start_time s) = true ->
  is_finite (clock env (events s)) = true ->
  (start_time s <=? clock env (events s))%float = true ->
  exists body,
    fst (health_check env s) = Return body
    /\ (0 <=? HealthResponse.uptime body)%float = true.
Proof.
  intros F0 F1 L. rewrite health_check_run. eexists. split; [reflexivity|].
  cbv beta iota delta [HealthResponse.uptime].
  apply sub_nonneg; assumption.
Qed.

Lemma uptime_not_negative_witness :
  exists body,
    fst (health_check env_half_second
           {| inference_engine := None; start_time := 0.25%float;
              events := [] |}) = Return body
    /\ (0 <=? HealthResponse.uptime body)%float = true.
Proof.
  apply (@uptime_not_negative env_half_second
           {| inference_engine := None; start_time := 0.25%float;
              events := [] |}); reflexivity.
Defined.

(* ================================================================= *)
(** ** Further properties of the post-processor and the prompt *)

Section SubsequenceFacts.

Lemma subsequence_nil_l (s : str) : subsequence [] s.
Proof. induction s; constructor; assumption. Qed.

Lemma subsequence_refl (s : str) : subsequence s s.
Proof. induction s; constructor; assumption. Qed.

Lemma subsequence_app (a s b t : str) :
  subsequence a s -> subsequence b t -> subsequence (a ++ b) (s ++ t).
Proof.
  intros H K. induction H; simpl; try constructor; assumption.
Qed.

Lemma subsequence_trans (a b c : str) :
  subsequence a b -> subsequence b c -> subsequence a c.
Proof.
  intros H K. revert a H. induction K as [|b c0 c K IH|b c0 c K IH]; intros a H.
  - exact H.
  - constructor. apply IH. exact H.
  - inversion H; subst.
    + apply subsequence_skip. apply IH. assumption.
    + apply subsequence_keep. apply IH. assumption.
Qed.

Lemma infix_subsequence (a s : str) : infix a s -> subsequence a s.
Proof.
  intros [p [q ->]].
  change a with ([] ++ a) at 1. apply subsequence_app; [apply subsequence_nil_l|].
  rewrite <- (app_nil_r a) at 1.
  apply subsequence_app; [apply subsequence_refl | apply subsequence_nil_l].
Qed.

Lemma replace_from_subsequence (old : str) (k : nat) (s : str) :
  subsequence (replace_from old [] k s) s.
Proof.
  revert k. induction s as [|c s IH]; intros k; simpl; [constructor|].
  destruct k as [|k]; [|constructor; apply IH].
  destruct (startswith old (c :: s)); simpl; constructor; apply IH.
Qed.

Lemma replace_subsequence (old s : str) : subsequence (replace old [] s) s.
Proof.
  unfold replace. destruct old as [|a o]; [|apply replace_from_subsequence].
  simpl. induction s; simpl; constructor; assumption.
Qed.

Lemma remove_subsequence (arts : list str) (s : str) :
  subsequence (remove_artifacts arts s) s.
Proof.
  unfold remove_artifacts. revert s.
  induction arts as [|a arts IH]; intros s; simpl; [apply subsequence_refl|].
  eapply subsequence_trans; [apply IH | apply replace_subsequence].
Qed.

Lemma subsequence_in (a s : str) (c : char) :
  subsequence a s -> In c a -> In c s.
Proof.
  intros H. induction H; simpl; intros K; auto.
  destruct K as [K|K]; auto.
Qed.

End SubsequenceFacts.

(** X14: the post-processor only deletes: the suggestion is the raw text
    with some characters removed, in the same order; it contains no
    character that the raw text does not contain, and is no longer. *)
Theorem post_process_only_deletes (raw : str) (request : CompletionRequest.t) :
  subsequence (_post_process_completion raw request) raw
  /\ (forall c, In c (_post_process_completion raw request) -> In c raw)
  /\ List.length (_post_process_completion raw request) <= List.length raw.
Proof.
  assert (S : subsequence (_post_process_completion raw request) raw).
  { eapply subsequence_trans; [apply infix_subsequence, post_process_infix|].
    eapply subsequence_trans; [apply remove_subsequence|].
    apply infix_subsequence, strip_infix. }
  split; [exact S|]. split.
  - intros c. apply subsequence_in. exact S.
  - apply post_process_length.
Qed.

Section GapFacts.

Variable sep : char.

Lemma startswith_app_sep (old x t : str) :
  ~ In sep old -> startswith old (x ++ sep :: t) = startswith old x.
Proof.
  revert x. induction old as [|a o IH]; intros x H; [reflexivity|].
  destruct x as [|c x]; simpl.
  - destruct (a =? sep)%N eqn:E; [|reflexivity].
    apply N.eqb_eq in E. destruct H. left. exact E.
  - rewrite IH by (intros K; apply H; right; exact K). reflexivity.
Qed.

Lemma startswith_length (old s : str) :
  startswith old s = true -> List.length old <= List.length s.
Proof.
  intros H. apply startswith_app in H as [q ->]. rewrite length_app. lia.
Qed.

(** A token without the separator is removed on either side of a
    separator independently. *)
Lemma replace_from_app_sep (old x t : str) (k : nat) :
  old <> [] -> ~ In sep old -> k <= List.length x ->
  replace_from old [] k (x ++ sep :: t) =
    replace_from old [] k x ++ sep :: replace_from old [] 0 t.
Proof.
  intros Hne Hs. revert k. induction x as [|c x IH]; intros k Hk.
  - assert (k = 0) by (simpl in Hk; lia). subst k.
    change ([] ++ sep :: t) with (sep :: t). cbn [replace_from app].
    assert (S : startswith old (sep :: t) = false).
    { pose proof (startswith_app_sep old [] t Hs) as S.
      change ([] ++ sep :: t) with (sep :: t) in S. rewrite S.
      destruct old; [congruence | reflexivity]. }
    rewrite S. reflexivity.
  - destruct k as [|k].
    + change ((c :: x) ++ sep :: t) with (c :: (x ++ sep :: t)).
      cbn [replace_from].
      change (c :: x ++ sep :: t) with ((c :: x) ++ sep :: t).
      rewrite (startswith_app_sep old (c :: x) t Hs).
      destruct (startswith old (c :: x)) eqn:S.
      * apply startswith_length in S. simpl in S.
        rewrite IH by lia. reflexivity.
      * rewrite IH by lia. reflexivity.
    + simpl. apply IH. simpl in Hk. lia.
Qed.

Lemma replace_app_sep (old x t : str) :
  old <> [] -> ~ In sep old -> contains old x = false ->
  replace old [] (x ++ sep :: t) = x ++ sep :: replace old [] t.
Proof.
  intros Hne Hs Hc.
  rewrite <- (replace_absent old x Hc) at 2.
  rewrite !replace_nonempty by exact Hne.
  apply replace_from_app_sep; [exact Hne | exact Hs | lia].
Qed.

Lemma remove_app_sep (arts : list str) (x t : str) :
  Forall (fun a => a <> [] /\ ~ In sep a) arts ->
  existsb (fun a => contains a x) arts = false ->
  remove_artifacts arts (x ++ sep :: t) = x ++ sep :: remove_artifacts arts t.
Proof.
  unfold remove_artifacts. intros H. revert t.
  induction H as [|a arts [Ha Hs] H IH]; intros t Hx; [reflexivity|].
  simpl in Hx. apply orb_false_iff in Hx as [Hc Hr].
  simpl. rewrite replace_app_sep by assumption. apply IH. exact Hr.
Qed.

Lemma split_app_sep_all (x t : str) :
  split sep (x ++ sep :: t) = split sep x ++ split sep t.
Proof.
  induction x as [|c x IH]; simpl.
  - rewrite N.eqb_refl. reflexivity.
  - destruct (c =? sep)%N; [rewrite IH; reflexivity|].
    rewrite IH. destruct (split sep x) as [|l ls] eqn:E;
      [destruct (split_nonempty _ _ E) | reflexivity].
Qed.

End GapFacts.

Section BlockFacts.

Lemma artifacts_no_LF :
  Forall (fun a => a <> [] /\ ~ In LF a) artifacts.
Proof.
  repeat constructor; try discriminate;
    cbv; intros H; repeat (destruct H as [H|H]; [discriminate H|]); exact H.
Qed.

Lemma first_block_all (L R : list str) :
  L <> [] -> forallb (fun l => negb (is_blank l)) L = true ->
  first_block (L ++ [] :: R) = L.
Proof.
  intros Hne H. unfold first_block.
  destruct L as [|l L]; [congruence|]. clear Hne.
  simpl in H. apply andb_prop in H as [Hl HL].
  apply negb_true_iff in Hl. simpl. rewrite Hl. simpl. rewrite Hl. simpl.
  f_equal. induction L as [|x L IH]; [reflexivity|].
  simpl in HL. apply andb_prop in HL as [Hx HL].
  simpl. rewrite Hx. f_equal. exact (IH HL).
Qed.

Lemma first_block_whole (L : list str) :
  forallb (fun l => negb (is_blank l)) L = true -> first_block L = L.
Proof.
  intros H. unfold first_block. destruct L as [|l L]; [reflexivity|].
  simpl in H. apply andb_prop in H as [Hl HL].
  assert (B : is_blank l = false) by (apply negb_true_iff; exact Hl).
  simpl. rewrite B. simpl. rewrite B. simpl. f_equal.
  induction L as [|x L IH]; [reflexivity|].
  simpl in HL. apply andb_prop in HL as [Hx HL].
  simpl. rewrite Hx. f_equal. exact (IH HL).
Qed.

Lemma nonblank_lines_nonblank (a : str) :
  forallb (fun l => negb (is_blank l)) (split LF a) = true -> is_blank a = false.
Proof.
  intros H. destruct (split LF a) as [|l ls] eqn:E;
    [destruct (split_nonempty _ _ E)|].
  simpl in H. apply andb_prop in H as [Hl _]. apply negb_true_iff in Hl.
  apply is_blank_infix with l; [|exact Hl].
  rewrite <- (join_split LF a), E. apply in_join_infix. left. reflexivity.
Qed.

End BlockFacts.

(** X15: what follows the first empty line is discarded, whatever it is:
    when [a] is trimmed, holds no artifact token and has no blank line,
    the post-processor maps [a], an empty line and any tail [b] to [a]. *)
Theorem post_process_drops_tail (a b : str) (request : CompletionRequest.t) :
  strip a = a ->
  has_artifact a = false ->
  forallb (fun l => negb (is_blank l)) (split LF a) = true ->
  _post_process_completion (a ++ [LF; LF] ++ b) request = a.
Proof.
  intros T A L.
  pose proof (nonblank_lines_nonblank a L) as Ba.
  assert (Ta : trimmed a) by (rewrite <- T; apply strip_trimmed).
  assert (Hne : split LF a <> []) by apply split_nonempty.
  rewrite post_process_closed.
  assert (S : exists b', strip (a ++ [LF; LF] ++ b) = a \/
                         strip (a ++ [LF; LF] ++ b) = a ++ LF :: LF :: b').
  { unfold strip. rewrite lstrip_app by exact Ba.
    rewrite (lstrip_fix a) by (intros c Hc; apply Ta; left; exact Hc).
    destruct (is_blank ([LF; LF] ++ b)) eqn:Bb.
    - exists []. left. rewrite rstrip_app_blank by exact Bb.
      unfold strip in T. rewrite (lstrip_fix a) in T
        by (intros c Hc; apply Ta; left; exact Hc). exact T.
    - exists (rstrip b). right. rewrite rstrip_app by exact Bb. f_equal.
      simpl in Bb. change (LF :: LF :: b) with ([LF; LF] ++ b).
      rewrite rstrip_app by exact Bb. reflexivity. }
  destruct S as [b' [S|S]]; rewrite S.
  - rewrite (remove_absent artifacts a A), (first_block_whole _ L), join_split.
    exact T.
  - rewrite (@remove_app_sep LF artifacts a (LF :: b') artifacts_no_LF A).
    change (LF :: b') with ([] ++ LF :: b').
    rewrite (@remove_app_sep LF artifacts [] b' artifacts_no_LF eq_refl).
    rewrite split_app_sep_all. change ([] ++ LF :: ?x) with (LF :: x).
    change (split LF (LF :: remove_artifacts artifacts b'))
      with ([] :: split LF (remove_artifacts artifacts b')).
    rewrite (first_block_all _ Hne L), join_split. exact T.
Qed.

Lemma post_process_drops_tail_witness :
  _post_process_completion
    (py "print('hi')" ++ [LF; LF] ++ py "<MID>def other():")
    hello_request = py "print('hi')".
Proof.
  apply (@post_process_drops_tail (py "print('hi')") (py "<MID>def other():")
           hello_request); reflexivity.
Defined.

(** X16: a text without artifact token and without blank line passes
    through unchanged, apart from the whitespace at its ends. *)
Theorem post_process_clean_passthrough (raw : str)
    (request : CompletionRequest.t) :
  has_artifact (strip raw) = false ->
  forallb (fun l => negb (is_blank l)) (split LF (strip raw)) = true ->
  _post_process_completion raw request = strip raw.
Proof.
  intros A L. rewrite post_process_closed.
  rewrite (remove_absent artifacts _ A), (first_block_whole _ L), join_split.
  apply trimmed_strip, strip_trimmed.
Qed.

Lemma post_process_clean_passthrough_witness :
  _post_process_completion
    (py "    if n <= 1:" ++ [LF] ++ py "        return n  ") hello_request =
  py "if n <= 1:" ++ [LF] ++ py "        return n".
Proof.
  apply (@post_process_clean_passthrough
           (py "    if n <= 1:" ++ [LF] ++ py "        return n  ")
           hello_request); reflexivity.
Defined.

(** X17: an answer of the backend that is empty or whitespace only is not
    an error: a loaded manager still answers 200, with the empty
    suggestion. *)
Theorem blank_answer_is_empty_200 (env : Env) (request : CompletionRequest.t)
    (me : CodeLlamaInference) (st : float) (tr : list event) (response : str) :
  model_loaded me = true ->
  client_generate env (tr ++ [TimeTime (clock env tr)]) (model_name me)
    (_prepare_prompt request) (decoding_options me request) = Return response ->
  is_blank response = true ->
  exists resp s',
    get_completion env request
      {| inference_engine := Some me; start_time := st; events := tr |} =
      (Return resp, s')
    /\ CompletionResponse.suggestion resp = []
    /\ http_status (fst (get_completion env request
         {| inference_engine := Some me; start_time := st; events := tr |})) =
       200%Z.
Proof.
  intros L G B. rewrite get_completion_run.
  cbv beta iota zeta delta [inference_engine events start_time].
  rewrite L, G, (strip_blank response B).
  eexists. eexists. split; [reflexivity|]. split; reflexivity.
Qed.

Lemma blank_answer_is_empty_200_witness :
  is_blank ([LF] ++ py "   " ++ [LF; LF]) = true
  /\ exists resp s',
       get_completion env_blank hello_request
         {| inference_engine := Some ready_engine; start_time := 0%float;
            events := [] |} = (Return resp, s')
       /\ CompletionResponse.suggestion resp = [].
Proof.
  split; [reflexivity|].
  destruct (@blank_answer_is_empty_200 env_blank hello_request ready_engine
              0%float [] ([LF] ++ py "   " ++ [LF; LF])
              eq_refl eq_refl eq_refl) as (resp & s' & G & E & _).
  exists resp, s'. split; [exact G | exact E].
Defined.

Section PromptFacts.

Lemma app_sep_inj (sep : char) (f1 f2 x y : str) :
  ~ In sep f1 -> ~ In sep f2 ->
  f1 ++ sep :: x = f2 ++ sep :: y -> f1 = f2 /\ x = y.
Proof.
  revert f2. induction f1 as [|c f1 IH]; intros f2 H1 H2 E.
  - destruct f2 as [|d f2]; simpl in E.
    + injection E as ->. split; reflexivity.
    + injection E as <- _. destruct H2. left. reflexivity.
  - destruct f2 as [|d f2]; simpl in E.
    + injection E as -> _. destruct H1. left. reflexivity.
    + injection E as -> E.
      destruct (IH f2) as [-> ->]; try assumption.
      * intros K. apply H1. right. exact K.
      * intros K. apply H2. right. exact K.
      * split; reflexivity.
Qed.

End PromptFacts.

(** X18: for file names without a line feed the prompt determines the
    request's file name and code: two requests with the same prompt have
    the same file name and the same code. *)
Theorem prepare_prompt_injective (r1 r2 : CompletionRequest.t) :
  ~ In LF (CompletionRequest.filename r1) ->
  ~ In LF (CompletionRequest.filename r2) ->
  _prepare_prompt r1 = _prepare_prompt r2 ->
  CompletionRequest.filename r1 = CompletionRequest.filename r2
  /\ CompletionRequest.code r1 = CompletionRequest.code r2.
Proof.
  intros H1 H2 E. unfold _prepare_prompt in E.
  apply app_inv_head in E.
  apply app_sep_inj in E as [Ef Ec]; [|assumption..].
  apply app_inv_tail in Ec. split; assumption.
Qed.

Lemma prepare_prompt_injective_witness :
  CompletionRequest.filename hello_request =
    CompletionRequest.filename zero_temperature_request
  /\ CompletionRequest.code hello_request =
       CompletionRequest.code zero_temperature_request.
Proof.
  apply (@prepare_prompt_injective hello_request zero_temperature_request).
  - cbv. intros H. repeat (destruct H as [H|H]; [discriminate H|]). exact H.
  - cbv. intros H. repeat (destruct H as [H|H]; [discriminate H|]). exact H.
  - reflexivity.
Defined.

(** Without the condition on the file name the prompt is ambiguous. *)
Example prepare_prompt_ambiguous :
  _prepare_prompt
    (CompletionRequest.Build (py "x") (py "python") [] (py "a" ++ [LF] ++ py "b")
       None None) =
  _prepare_prompt
    (CompletionRequest.Build (py "b" ++ [LF] ++ py "x") (py "python") [] (py "a")
       None None).
Proof. reflexivity. Qed.

(** X19: when the configured model is not listed, [initialize] pulls it
    once and then runs the probe generation, whether the pull returned or
    raised: its backend calls are the list call, one pull and the probe. *)
Theorem initialize_missing_pulls_once (env : Env) (me : CodeLlamaInference)
    (tr : list event) (names : list str) :
  client_list env tr = Return names ->
  str_in (model_name me) names = false ->
  exists b new,
    initialize env {| self := me; trace := tr |} =
      (Return b,
       {| self := {| config := config me; model_name := model_name me;
                     model_loaded := b |};
          trace := tr ++ new |})
    /\ backend_calls new =
         [ClientList; ClientPull (model_name me);
          ClientGenerate (model_name me) (py "def hello():") probe_options].
Proof.
  intros Hl Hn. run_method. rewrite Hl. cbv beta iota. rewrite Hn.
  cbv beta iota. fold probe_options.
  destruct (client_pull env _ _); cbv beta iota;
    destruct (client_generate env _ _ _ _); cbv beta iota; flat_trace;
    eexists; eexists; (split; reflexivity).
Qed.

Lemma initialize_missing_pulls_once_witness :
  str_in (model_name ready_engine) [] = false
  /\ exists b new,
       initialize env_no_pull {| self := ready_engine; trace := [] |} =
         (Return b,
          {| self := {| config := config ready_engine;
                        model_name := model_name ready_engine;
                        model_loaded := b |};
             trace := [] ++ new |})
       /\ List.length (backend_calls new) = 3.
Proof.
  split; [reflexivity|].
  destruct (@initialize_missing_pulls_once env_no_pull ready_engine [] []
              eq_refl eq_refl) as (b & new & I & C).
  exists b, new. split; [exact I | rewrite C; reflexivity].
Defined.

(* ================================================================= *)
(** ** The confidence of fast answers *)

Unset Implicit Arguments.

Section Saturation.
Local Open Scope Z_scope.

Lemma shr_1_half mrs : 0 <= shr_m mrs -> shr_m (shr_1 mrs) = shr_m mrs / 2.
Proof.
  destruct mrs as [m r s]. cbv [shr_m]. intros H.
  destruct m as [|[p|p|]|p]; cbv [shr_1 shr_m]; try lia.
  - reflexivity.
  - apply Z.div_unique with 1; lia.
  - apply Z.div_unique with 0; lia.
  - reflexivity.
Qed.

Lemma iter_shr_1 p mrs :
  0 <= shr_m mrs ->
  shr_m (iter_pos shr_1 p mrs) = shr_m mrs / 2 ^ Z.pos p.
Proof.
  revert mrs. induction p as [p IH|p IH|]; intros mrs H; simpl iter_pos.
  - assert (Q : 0 < 2 ^ Z.pos p) by (apply Z.pow_pos_nonneg; lia).
    assert (P : 2 ^ Z.pos p~1 = 2 * 2 ^ Z.pos p * 2 ^ Z.pos p).
    { replace (Z.pos p~1) with (1 + Z.pos p + Z.pos p) by lia.
      rewrite !Z.pow_add_r by lia. reflexivity. }
    rewrite IH, IH, shr_1_half; try assumption.
    + rewrite P, !Z.div_div by lia. f_equal. lia.
    + apply shr_1_nonneg. assumption.
    + apply iter_pos_inv with (P := fun x => 0 <= shr_m x);
        [apply shr_1_nonneg | apply shr_1_nonneg; assumption].
  - assert (Q : 0 < 2 ^ Z.pos p) by (apply Z.pow_pos_nonneg; lia).
    assert (P : 2 ^ Z.pos p~0 = 2 ^ Z.pos p * 2 ^ Z.pos p).
    { replace (Z.pos p~0) with (Z.pos p + Z.pos p) by lia.
      rewrite !Z.pow_add_r by lia. reflexivity. }
    rewrite IH, IH; try assumption.
    + rewrite P, !Z.div_div by lia. reflexivity.
    + apply iter_pos_inv with (P := fun x => 0 <= shr_m x);
        [apply shr_1_nonneg | assumption].
  - rewrite shr_1_half by assumption. reflexivity.
Qed.

(** Shifting a mantissa of more than [n] digits right by [n] leaves a
    positive mantissa; the exponent moves up to the target. *)
Lemma shr_fexp_positive (m : positive) (e : Z) (l : location) :
  let f := fexp prec emax (Z.pos (digits2_pos m) + e) in
  f < Z.pos (digits2_pos m) + e ->
  0 < shr_m (fst (shr_fexp prec emax (Z.pos m) e l))
  /\ snd (shr_fexp prec emax (Z.pos m) e l) = Z.max e f.
Proof.
  cbv zeta. intros H. unfold shr_fexp, shr. simpl Zdigits2.
  set (f := fexp prec emax (Z.pos (digits2_pos m) + e)) in *.
  assert (M : shr_m (shr_record_of_loc (Z.pos m) l) = Z.pos m)
    by (destruct l as [|[]]; reflexivity).
  destruct (f - e) as [|n|n] eqn:E; simpl fst; simpl snd.
  - rewrite M. split; lia.
  - rewrite iter_shr_1 by (rewrite M; lia). rewrite M. split; [|lia].
    apply Z.div_str_pos. split; [apply Z.pow_pos_nonneg; lia|].
    destruct (digits2_bounds m) as [Lo _].
    apply Z.le_trans with (2 ^ (Z.pos (digits2_pos m) - 1)); [|exact Lo].
    apply Z.pow_le_mono_r; lia.
  - rewrite M. split; lia.
Qed.

Lemma digits2_iter_xO (m d : positive) :
  Z.pos (digits2_pos (Pos.iter xO m d)) = Z.pos (digits2_pos m) + Z.pos d.
Proof.
  induction d as [|d IH] using Pos.peano_ind.
  - simpl. lia.
  - rewrite Pos.iter_succ. simpl digits2_pos. rewrite Pos2Z.inj_succ, IH. lia.
Qed.

Lemma round_nearest_even_ge m l : m <= round_nearest_even m l.
Proof.
  destruct l as [|[]]; simpl; try lia. destruct (Z.even m); lia.
Qed.

(** A value of at least two rounds to a finite float of exponent at least
    -51, or to plus infinity. *)
Lemma binary_round_large (m : positive) (e : Z) :
  2 <= Z.pos (digits2_pos m) + e ->
  match binary_round prec emax false m e with
  | S754_infinity false => True
  | S754_finite false _ e' => -51 <= e'
  | _ => False
  end.
Proof.
  intros D. unfold binary_round.
  set (f := fexp prec emax (Z.pos (digits2_pos m) + e)).
  assert (Hf : -51 <= f /\ f < Z.pos (digits2_pos m) + e /\ -1074 <= f).
  { unfold f, fexp, SpecFloat.emin, prec, emax. lia. }
  assert (A : exists mz ez, shl_align m e f = (mz, ez)
              /\ Z.pos (digits2_pos mz) + ez = Z.pos (digits2_pos m) + e
              /\ ez <= f).
  { unfold shl_align. destruct (f - e) as [|d|d] eqn:E.
    - exists m, e. repeat split; lia.
    - exists m, e. repeat split; lia.
    - exists (Pos.iter xO m d), f. split; [reflexivity|].
      rewrite digits2_iter_xO. split; lia. }
  destruct A as (mz & ez & -> & Dz & Ez).
  unfold binary_round_aux.
  pose proof (shr_fexp_positive mz ez loc_Exact) as S1. cbv zeta in S1.
  rewrite Dz in S1. fold f in S1. specialize (S1 ltac:(lia)).
  destruct (shr_fexp prec emax (Z.pos mz) ez loc_Exact) as [mrs1 e1].
  cbn [fst snd] in S1. destruct S1 as [P1 E1].
  assert (E1' : e1 = f) by lia. clear E1. subst e1.
  pose proof (round_nearest_even_ge (shr_m mrs1) (loc_of_shr_record mrs1)) as R.
  destruct (round_nearest_even (shr_m mrs1) (loc_of_shr_record mrs1))
    as [|m1|m1] eqn:Em1; try lia.
  set (f2 := fexp prec emax (Z.pos (digits2_pos m1) + f)).
  destruct (Z_lt_le_dec f2 (Z.pos (digits2_pos m1) + f)) as [Lt|Ge].
  - pose proof (shr_fexp_positive m1 f loc_Exact) as S2. cbv zeta in S2.
    fold f2 in S2. specialize (S2 Lt).
    destruct (shr_fexp prec emax (Z.pos m1) f loc_Exact) as [mrs2 e2].
    cbn [fst snd] in S2. destruct S2 as [P2 E2].
    destruct (shr_m mrs2) as [|m2|m2]; try lia.
    destruct (e2 <=? emax - prec); [lia | exact I].
  - exfalso. unfold f2, fexp, SpecFloat.emin, prec, emax in Ge. lia.
Qed.

Lemma add_two_large (y : spec_float) :
  sf_nonneg_or_nan y ->
  SFltb (SF64add y (S754_finite false 4503599627370496 (-51)))
        (S754_finite false 8556839292003942 (-53)) = false.
Proof.
  destruct y as [[]|[]| |[] my ey]; intros Hy;
    try contradiction Hy; try reflexivity.
  cbv beta iota zeta delta [SF64add SFadd cond_Zopp binary_normalize Z.add].
  set (ez := Z.min ey (-51)).
  assert (Hez : ez <= -51 /\ ez <= ey) by (unfold ez; lia).
  pose proof (shl_align_value 4503599627370496 (-51) ez ltac:(lia)) as V2.
  change (Z.pos 4503599627370496) with (2 ^ 52) in V2.
  rewrite <- Z.pow_add_r in V2 by lia.
  set (a := fst (shl_align my ey ez)) in *.
  set (b := fst (shl_align 4503599627370496 (-51) ez)) in *.
  assert (D : 2 <= Z.pos (digits2_pos (a + b)) + ez).
  { destruct (digits2_bounds (a + b)) as [_ Up].
    assert (H : 2 ^ (52 + (-51 - ez)) < 2 ^ Z.pos (digits2_pos (a + b))) by lia.
    apply Z.pow_lt_mono_r_iff in H; lia. }
  pose proof (binary_round_large (a + b) ez D) as B.
  unfold SFltb.
  destruct (binary_round prec emax false (a + b) ez) as [s|s| |s m' e'];
    try destruct s; cbv beta iota in B; try (exfalso; exact B);
    try reflexivity.
  cbv beta iota delta [SFcompare].
  destruct (Z.compare_spec e' (-53)); try reflexivity; lia.
Qed.

End Saturation.

Section Fast.
Local Open Scope float_scope.

Lemma scaled_length_nonneg n :
  sf_nonneg_or_nan (Prim2SF (float_of_len n / 100 * 0.8)).
Proof.
  rewrite FloatAxioms.mul_spec, FloatAxioms.div_spec.
  apply SFmul_nonneg; [|vm_compute; exact I].
  apply SFdiv_nonneg; [apply float_of_len_nonneg | vm_compute; exact I].
Qed.

(** Below a tenth of a second the latency term alone is 2, and the cap
    applies whatever the length. *)
Lemma fast_answer_saturates n t :
  (t <? 0.1) = true -> ConfidenceEstimator n t = 0.95.
Proof.
  intros H. unfold ConfidenceEstimator, py_max. rewrite H.
  change (1 / 0.1 * 0.2) with 2.
  unfold py_min.
  rewrite FloatAxioms.ltb_spec, FloatAxioms.add_spec.
  change (Prim2SF 2) with (S754_finite false 4503599627370496 (-51)).
  change (Prim2SF 0.95) with (S754_finite false 8556839292003942 (-53)).
  rewrite add_two_large; [reflexivity | apply scaled_length_nonneg].
Qed.

End Fast.

Set Implicit Arguments.

(** X20: an answer produced in less than a tenth of a second gets the
    confidence 0.95, whatever the suggestion is, the empty one included:
    the latency term alone exceeds the cap. *)
Theorem fast_answer_gets_top_confidence (env : Env)
    (request : CompletionRequest.t) (s s' : Server)
    (resp : CompletionResponse.t) :
  get_completion env request s = (Return resp, s') ->
  (CompletionResponse.processing_time resp <? 0.1)%float = true ->
  CompletionResponse.confidence resp = 0.95%float.
Proof.
  intros H F.
  destruct (get_completion_inv _ _ _ H) as (me & response & _ & _ & K).
  cbv zeta in K. destruct K as (_ & _ & _ & K & _).
  rewrite K. apply fast_answer_saturates. exact F.
Qed.

Lemma fast_answer_gets_top_confidence_witness :
  CompletionResponse.confidence
    {| CompletionResponse.suggestion := [];
       CompletionResponse.confidence := 0.95%float;
       CompletionResponse.processing_time := 0%float |} = 0.95%float.
Proof.
  refine (@fast_answer_gets_top_confidence env_blank hello_request
    {| inference_engine := Some ready_engine; start_time := 0%float; events := [] |}
    _ {| CompletionResponse.suggestion := [];
         CompletionResponse.confidence := 0.95%float;
         CompletionResponse.processing_time := 0%float |} _ _).
  - vm_compute. reflexivity.
  - reflexivity.
Defined.
